(** * PASL node core: codec, ChangeKey operation, block assembly, peer connection

    A shallow embedding of the Go sources

      - [utils/serialize.go]        (package [utils])
      - [safebox/tx/txchangekey.go] (package [tx])
      - the block file of package [safebox]
      - [network/pasl/connection.go] (package [pasl])

    Integers of width [w] are values of [Z] with the wrap-around written
    out; byte strings are [list byte]; Go panics are the [Panic] outcome;
    Go [error] results are values of type [option error] ([None] is [nil]);
    channel sends are recorded in a trace. *)

From Stdlib Require Import ZArith Lia.
From Stdlib Require Strings.Byte.
From stdpp Require Import base list strings pretty gmap.

Local Open Scope Z_scope.
Set Warnings "-register-all".

(** ** Go runtime values shared by all packages *)

Abbreviation byte := Byte.byte.

Definition byte_of_Z (z : Z) : byte :=
  match Byte.of_N (Z.to_N (z mod 256)) with
  | Some b => b
  | None => Byte.x00
  end.

Definition Z_of_byte (b : byte) : Z := Z.of_N (Byte.to_N b).

(** Conversions [uint8(x)], [uint16(x)], [uint32(x)], [uint64(x)]. *)
Definition wrap (bits : Z) (z : Z) : Z := z mod 2 ^ bits.
Definition uint8 := wrap 8.
Definition uint16 := wrap 16.
Definition uint32 := wrap 32.
Definition uint64 := wrap 64.

(** Conversion [int16(x)] of an unsigned 16-bit pattern. *)
Definition int16 (z : Z) : Z :=
  let u := uint16 z in if 2 ^ 15 <=? u then u - 2 ^ 16 else u.

(** Go [error] values. *)
Inductive error : Type :=
| EOF
| ErrUnexpectedEOF
| errorString (msg : string).

(** A Go call either returns or panics. *)
Inductive outcome (A : Type) : Type :=
| Return (a : A)
| Panic (msg : string).
Arguments Return {A} a.
Arguments Panic {A} msg.

#[global] Instance outcome_ret : MRet outcome := @Return.
#[global] Instance outcome_bind : MBind outcome :=
  λ A B f m, match m with Return a => f a | Panic msg => Panic msg end.

(** *** [bytes.Buffer] as a reader, [encoding/binary] little-endian *)

(** The unread portion of a [bytes.Buffer]. *)
Definition Buffer := list byte.

(** [Buffer.Read(p)] with [len(p) = n]: the bytes copied into [p], the
    error, the buffer afterwards. *)
Definition Buffer_Read (n : nat) (b : Buffer) : list byte * option error * Buffer :=
  match b with
  | [] => if (n =? 0)%nat then ([], None, []) else ([], Some EOF, [])
  | _ => (take n b, None, drop n b)
  end.

(** [io.ReadFull(r, buf)] with [len(buf) = n] on a [bytes.Buffer]: a short
    buffer is drained and reported as [EOF] (nothing read) or
    [ErrUnexpectedEOF]. *)
Definition ReadFull (n : nat) (r : Buffer) : (list byte + error) * Buffer :=
  let '(got, err, r1) := Buffer_Read n r in
  if (n <=? length got)%nat then (inl got, r1)
  else match got with
       | [] => (inr EOF, [])
       | _ => (inr ErrUnexpectedEOF, [])
       end.

(** [binary.LittleEndian.PutUintN]: [b[i] = byte(v >> (8*i))]. *)
Fixpoint PutUint (size : nat) (v : Z) : list byte :=
  match size with
  | O => []
  | S n => byte_of_Z v :: PutUint n (Z.shiftr v 8)
  end.

(** [binary.LittleEndian.UintN]: [b[0] | b[1]<<8 | ...]. *)
Fixpoint Uint (bs : list byte) : Z :=
  match bs with
  | [] => 0
  | b :: rest => Z.lor (Z_of_byte b) (Z.shiftl (Uint rest) 8)
  end.

(** [binary.Read(r, binary.LittleEndian, &val)] for an unsigned integer of
    [size] bytes. *)
Definition binary_Read_uint (size : nat) (r : Buffer) : (Z + error) * Buffer :=
  match ReadFull size r with
  | (inl bs, r') => (inl (Uint bs), r')
  | (inr e, r') => (inr e, r')
  end.

(** [binary.Read(r, binary.LittleEndian, &data)] for [data []byte] of
    length [n]. *)
Definition binary_Read_bytes (n : nat) (r : Buffer) : (list byte + error) * Buffer :=
  ReadFull n r.

(** The little-endian encoding in [width] bytes as the specification words
    it: byte [i] is digit [i] of [v] in base 256. *)
Definition little_endian (width : nat) (v : Z) : list byte :=
  map (λ i : nat, byte_of_Z (v / 256 ^ Z.of_nat i)) (seq 0 width).

(** ** Package [utils] *)

Module utils.

(** [type Serializable interface { Serialize(io.Writer) error;
    Deserialize(io.Reader) error }].  [Serialize] yields the bytes written
    to the writer and the error; [Deserialize] the receiver afterwards, the
    reader afterwards and the error. *)
Class Serializable (T : Type) : Type := {
  Serializable_Serialize : T → list byte * option error;
  Serializable_Deserialize : T → Buffer → T * Buffer * option error
}.

Record BytesWithoutLengthPrefix : Type := { Bytes : list byte }.

Definition BytesWithoutLengthPrefix_Serialize (this : BytesWithoutLengthPrefix)
  : list byte * option error :=
  (Bytes this, None).

Definition BytesWithoutLengthPrefix_Deserialize (this : BytesWithoutLengthPrefix)
    (r : Buffer) : BytesWithoutLengthPrefix * Buffer * option error :=
  let '(got, err, r') := Buffer_Read (length (Bytes this)) r in
  ({| Bytes := got ++ drop (length got) (Bytes this) |}, r', err).

#[global] Instance BytesWithoutLengthPrefix_Serializable
  : Serializable BytesWithoutLengthPrefix := {
  Serializable_Serialize := BytesWithoutLengthPrefix_Serialize;
  Serializable_Deserialize := BytesWithoutLengthPrefix_Deserialize
}.

Definition SerializeBytes (data : list byte) : list byte :=
  let dataLen := Z.of_nat (length data) in
  byte_of_Z (Z.land dataLen 255) :: byte_of_Z (Z.shiftr dataLen 8) :: data.

(** Returns [(data, err)] and the reader afterwards; [make([]byte, size)]
    panics for a negative [size]. *)
Definition DeserializeBytes (reader : Buffer)
  : outcome (list byte * option error * Buffer) :=
  match binary_Read_uint 2 reader with
  | (inr err, reader') => Return ([], Some err, reader')
  | (inl bits, reader') =>
      let size := int16 bits in
      if size <? 0 then Panic "makeslice: len out of range"
      else match binary_Read_bytes (Z.to_nat size) reader' with
           | (inr err, reader'') => Return ([], Some err, reader'')
           | (inl data, reader'') => Return (data, None, reader'')
           end
  end.

(** The [reflect.Kind]s of the unsigned integers the walker supports. *)
Inductive uintKind : Type := Uint8 | Uint16 | Uint32 | Uint64.

Definition size (k : uintKind) : nat :=
  match k with Uint8 => 1 | Uint16 => 2 | Uint32 => 4 | Uint64 => 8 end%nat.

Definition bits (k : uintKind) : Z := 8 * Z.of_nat (size k).

Section walker.

(** [C] is the type of the objects behind the pointers, interfaces and
    addressable structs that implement [Serializable]. *)
Context {C : Type} `{!Serializable C}.

(** Go types as [reflect] sees them.  [TStruct (Some z) _] is a struct type
    whose pointer type implements [Serializable], [z] being its zero
    object. *)
Inductive type : Type :=
| TUint (k : uintKind)
| TString
| TSlice (elem : type)
| TStruct (ser : option C) (fields : list type)
| TPtr
| TInterface
| TOther.

(** Go values as [reflect] sees them.  A slice whose element kind is
    [Uint8] is a [VBytes].  [VStruct (Some c) fields] is a struct whose
    pointer type implements [Serializable]: [c] is the object its methods
    work on, [fields] what a walk by fields sees.  [VPtr None] and
    [VInterface None] are nil (or hold something that is not
    [Serializable]); [VOther] is a value of any other kind. *)
Inductive value : Type :=
| VUint (k : uintKind) (n : Z)
| VString (s : list byte)
| VBytes (b : list byte)
| VSlice (elem : type) (items : list value)
| VStruct (ser : option C) (fields : list value)
| VPtr (p : option C)
| VInterface (p : option C)
| VOther.

(** The zero value of a type, as [reflect.MakeSlice] fills a new slice. *)
Fixpoint zero (t : type) : value :=
  match t with
  | TUint k => VUint k 0
  | TString => VString []
  | TSlice (TUint Uint8) => VBytes []
  | TSlice e => VSlice e []
  | TStruct ser fields => VStruct ser (map zero fields)
  | TPtr => VPtr None
  | TInterface => VInterface None
  | TOther => VOther
  end.

(** *** [Serialize] *)

(** The callback's call of a custom [Serialize]: an error panics. *)
Definition custom_Serialize (c : C) : outcome (list byte) :=
  match Serializable_Serialize c with
  | (written, None) => Return written
  | (_, Some _) => Panic "Custom type serialization failed"
  end.

(** The walker's loop over the fields of a struct or the elements of a
    slice, left to right. *)
Definition put_each (f : value → outcome (list byte))
  : list value → outcome (list byte) :=
  fix go (l : list value) : outcome (list byte) :=
    match l with
    | [] => Return []
    | el :: rest => a ← f el; b ← go rest; mret (a ++ b)
    end.

(** [strucWalker]'s [step] on one field or element [el] with [Serialize]'s
    callback, followed by the walk of what [step] pushed on [wayBack]: the
    bytes appended to [serialized].  [addr] is [el.CanAddr()]; the elements
    of a slice are always addressable. *)
Fixpoint put (addr : bool) (el : value) {struct el} : outcome (list byte) :=
  match el with
  | VStruct ser fields =>
      match (if addr then ser else None) with
      | Some c => custom_Serialize c
      | None => put_each (put addr) fields
      end
  | VBytes b =>
      mret (PutUint 2 (uint16 (Z.of_nat (length b))) ++ b)
  | VSlice _ items =>
      rest ← put_each (put true) items;
      mret (PutUint 4 (uint32 (Z.of_nat (length items))) ++ rest)
  | VPtr (Some c) => custom_Serialize c
  | VInterface (Some c) => custom_Serialize c
  | VUint k n => mret (PutUint (size k) (wrap (bits k) n))
  | VString s =>
      mret (PutUint 2 (uint16 (Z.of_nat (length s))) ++ s)
  | VPtr None | VInterface None | VOther => Panic "Unimplemented"
  end.

(** [Serialize(struc)]: [ptr] tells whether [struc] is a pointer to the
    value (then the value is addressable) or the value itself.  The
    outermost value is popped from [wayBack] by the main loop: a struct is
    walked by fields, a slice by elements with no count written, anything
    else goes to the callback. *)
Definition Serialize (ptr : bool) (struc : value) : outcome (list byte) :=
  match struc with
  | VSlice _ items => put_each (put true) items
  | VBytes b => put_each (put true) (map (λ x, VUint Uint8 (Z_of_byte x)) b)
  | _ => put ptr struc
  end.

(** *** [Deserialize] *)

(** [var val uintN; binary.Read(r, binary.LittleEndian, &val)] with the
    error dropped: [val] stays 0 when the read fails. *)
Definition read_uint (size : nat) (r : Buffer) : Z * Buffer :=
  match binary_Read_uint size r with
  | (inl v, r') => (v, r')
  | (inr _, r') => (0, r')
  end.

(** [data := make([]byte, len); binary.Read(r, binary.LittleEndian, &data)]
    with the error dropped: [data] stays zeroed when the read fails. *)
Definition read_bytes (len : Z) (r : Buffer) : list byte * Buffer :=
  match binary_Read_bytes (Z.to_nat len) r with
  | (inl data, r') => (data, r')
  | (inr _, r') => (replicate (Z.to_nat len) Byte.x00, r')
  end.

(** The callback's call of a custom [Deserialize]: an error panics. *)
Definition custom_Deserialize (c : C) (r : Buffer) : outcome (C * Buffer) :=
  match Serializable_Deserialize c r with
  | (c', r', None) => Return (c', r')
  | (_, _, Some _) => Panic "Custom type deserialization failed"
  end.

Definition get_each (f : value → Buffer → outcome (value * Buffer))
  : list value → Buffer → outcome (list value * Buffer) :=
  fix go (l : list value) (r : Buffer) : outcome (list value * Buffer) :=
    match l with
    | [] => Return ([], r)
    | el :: rest =>
        '(el', r1) ← f el r; '(rest', r2) ← go rest r1; mret (el' :: rest', r2)
    end.

Definition new_each (f : type → Buffer → outcome (value * Buffer))
  : list type → Buffer → outcome (list value * Buffer) :=
  fix go (l : list type) (r : Buffer) : outcome (list value * Buffer) :=
    match l with
    | [] => Return ([], r)
    | t :: rest =>
        '(el', r1) ← f t r; '(rest', r2) ← go rest r1; mret (el' :: rest', r2)
    end.

(** The same loop over the [n] elements of a slice just made by
    [reflect.MakeSlice]. *)
Definition new_elems (f : Buffer → outcome (value * Buffer))
  : nat → Buffer → outcome (list value * Buffer) :=
  fix go (n : nat) (r : Buffer) : outcome (list value * Buffer) :=
    match n with
    | O => Return ([], r)
    | S m =>
        '(el', r1) ← f r; '(rest', r2) ← go m r1; mret (el' :: rest', r2)
    end.

(** [step] with [Deserialize]'s callback on a zero value of type [t] (an
    element of a slice made by [reflect.MakeSlice], or a field below one):
    the value afterwards and the reader afterwards. *)
Fixpoint new (t : type) (r : Buffer) {struct t} : outcome (value * Buffer) :=
  match t with
  | TStruct (Some c) fields =>
      '(c', r') ← custom_Deserialize c r;
      mret (VStruct (Some c') (map zero fields), r')
  | TStruct None fields =>
      '(fields', r') ← new_each new fields r; mret (VStruct None fields', r')
  | TSlice (TUint Uint8) =>
      let '(len, r1) := read_uint 2 r in
      let '(data, r2) := read_bytes len r1 in
      mret (VBytes data, r2)
  | TSlice e =>
      let '(len, r1) := read_uint 4 r in
      '(items, r2) ← new_elems (new e) (Z.to_nat len) r1;
      mret (VSlice e items, r2)
  | TUint k =>
      let '(val, r') := read_uint (size k) r in mret (VUint k val, r')
  | TString =>
      let '(len, r1) := read_uint 2 r in
      let '(str, r2) := read_bytes len r1 in
      mret (VString str, r2)
  | TPtr => Panic "nil pointer dereference"
  | TInterface | TOther => Panic "Unimplemented"
  end.

(** [step] with [Deserialize]'s callback on an addressable field or element
    [el] that already holds a value. *)
Fixpoint get (el : value) (r : Buffer) {struct el} : outcome (value * Buffer) :=
  match el with
  | VStruct (Some c) fields =>
      '(c', r') ← custom_Deserialize c r; mret (VStruct (Some c') fields, r')
  | VStruct None fields =>
      '(fields', r') ← get_each get fields r; mret (VStruct None fields', r')
  | VBytes _ =>
      let '(len, r1) := read_uint 2 r in
      let '(data, r2) := read_bytes len r1 in
      mret (VBytes data, r2)
  | VSlice e _ =>
      let '(len, r1) := read_uint 4 r in
      '(items, r2) ← new_elems (new e) (Z.to_nat len) r1;
      mret (VSlice e items, r2)
  | VPtr (Some c) =>
      '(c', r') ← custom_Deserialize c r; mret (VPtr (Some c'), r')
  | VUint k _ =>
      let '(val, r') := read_uint (size k) r in mret (VUint k val, r')
  | VString _ =>
      let '(len, r1) := read_uint 2 r in
      let '(str, r2) := read_bytes len r1 in
      mret (VString str, r2)
  | VPtr None => Panic "nil pointer dereference"
  | VInterface _ | VOther => Panic "Unimplemented"
  end.

(** [Deserialize(&struc, r)] for a [bytes.Buffer] [r]: the value of [struc]
    afterwards, the reader afterwards, and the returned error.  The
    outermost value is popped by the main loop: a slice is walked over the
    elements it already has, no count is read. *)
Definition Deserialize (struc : value) (r : Buffer)
  : outcome (value * Buffer * option error) :=
  match struc with
  | VSlice e items =>
      '(items', r') ← get_each get items r; mret (VSlice e items', r', None)
  | VBytes b =>
      '(items', r') ← get_each get (map (λ x, VUint Uint8 (Z_of_byte x)) b) r;
      mret (VBytes (map (λ el, match el with
                               | VUint _ n => byte_of_Z n
                               | _ => Byte.x00
                               end) items'), r', None)
  | _ => '(struc', r') ← get struc r; mret (struc', r', None)
  end.

(** *** [strucWalker] as written, for a callback that changes no value

    [Serialize] and [Deserialize] above follow the walk by recursion on the
    value.  The source walks with an explicit list [wayBack] of pairs
    [(value, index)], popped from the back.  Below is that loop for a
    callback that only reads (as [Serialize]'s does), so that a
    [reflect.Value] is the value with its [CanAddr()]; [Serialize_walk] runs
    it with [Serialize]'s callback. *)

Record pair : Type := { a : value; a_CanAddr : bool; b : nat }.

(** [el.CanAddr()] and [el.Addr().Interface().(Serializable)] succeeds. *)
Definition addressable_Serializable (el : value) (CanAddr : bool) : bool :=
  match el with
  | VStruct (Some _) _ => CanAddr
  | _ => false
  end.

(** [v.Field(i)] or [v.Index(i)] for all [i], and their [CanAddr()]. *)
Definition elements (v : value) : list value :=
  match v with
  | VStruct _ fields => fields
  | VSlice _ items => items
  | VBytes b => map (λ x, VUint Uint8 (Z_of_byte x)) b
  | _ => []
  end.

Definition element_CanAddr (v : value) (CanAddr : bool) : bool :=
  match v with
  | VStruct _ _ => CanAddr
  | _ => true
  end.

(** The function literal that [Serialize] passes to [strucWalker]: the
    buffer [serialized] afterwards. *)
Definition Serialize_callback (value : value) (serialized : list byte)
  : outcome (list byte) :=
  match value with
  | VPtr (Some c) | VInterface (Some c) | VStruct (Some c) _ =>
      w ← custom_Serialize c; mret (serialized ++ w)
  | VUint k n => mret (serialized ++ PutUint (size k) (wrap (bits k) n))
  | VString s =>
      mret (serialized ++ PutUint 2 (uint16 (Z.of_nat (length s))) ++ s)
  | VBytes b =>
      mret (serialized ++ PutUint 2 (uint16 (Z.of_nat (length b))) ++ b)
  | VSlice _ items =>
      mret (serialized ++ PutUint 4 (uint32 (Z.of_nat (length items))))
  | VStruct None _ => Panic "interface conversion"
  | VPtr None | VInterface None | VOther => Panic "Unimplemented"
  end.

Section loop.

Context {St : Type} (callback : value → St → outcome St).

(** The closure [step]: the callback's state and [wayBack] afterwards (its
    back is the head of the list), and the boolean returned. *)
Definition step (i : nat) (v : pair) (el : value) (s : St) (wayBack : list pair)
  : outcome (St * list pair * bool) :=
  let el_CanAddr := element_CanAddr (a v) (a_CanAddr v) in
  let pushed :=
    {| a := el; a_CanAddr := el_CanAddr; b := 0 |}
    :: {| a := a v; a_CanAddr := a_CanAddr v; b := i + 1 |}
    :: wayBack in
  match el with
  | VStruct _ _ =>
      if addressable_Serializable el el_CanAddr
      then s' ← callback el s; mret (s', wayBack, true)
      else mret (s, pushed, false)
  | VBytes _ => s' ← callback el s; mret (s', wayBack, true)
  | VSlice _ _ => s' ← callback el s; mret (s', pushed, false)
  | _ => s' ← callback el s; mret (s', wayBack, true)
  end.

(** [for i := b; i < total; i++ { if !step(i, v, element i) { break } }],
    with [rest] the elements from [i] on. *)
Fixpoint for_elements (v : pair) (i : nat) (rest : list value) (s : St)
    (wayBack : list pair) : outcome (St * list pair) :=
  match rest with
  | [] => Return (s, wayBack)
  | el :: rest' =>
      match step i v el s wayBack with
      | Return (s', wayBack', true) => for_elements v (i + 1) rest' s' wayBack'
      | Return (s', wayBack', false) => Return (s', wayBack')
      | Panic msg => Panic msg
      end
  end.

(** [for wayBack.Len() > 0 { ... }]; [None] when [fuel] iterations do not
    empty the list. *)
Fixpoint strucWalker_loop (fuel : nat) (wayBack : list pair) (s : St)
  : option (outcome St) :=
  match wayBack with
  | [] => Some (Return s)
  | current :: wayBack =>
      match fuel with
      | O => None
      | S fuel' =>
          let v := a current in
          match v with
          | VStruct _ _ | VSlice _ _ | VBytes _ =>
              if addressable_Serializable v (a_CanAddr current)
              then match callback v s with
                   | Return s' => strucWalker_loop fuel' wayBack s'
                   | Panic msg => Some (Panic msg)
                   end
              else match for_elements current (b current)
                           (drop (b current) (elements v)) s wayBack with
                   | Return (s', wayBack') => strucWalker_loop fuel' wayBack' s'
                   | Panic msg => Some (Panic msg)
                   end
          | _ =>
              match callback v s with
              | Return s' => strucWalker_loop fuel' wayBack s'
              | Panic msg => Some (Panic msg)
              end
          end
      end
  end.

(** [strucWalker(struc, callback)]; [ptr] tells whether [struc] is a
    pointer. *)
Definition strucWalker (fuel : nat) (ptr : bool) (struc : value) (s : St)
  : option (outcome St) :=
  strucWalker_loop fuel [{| a := struc; a_CanAddr := ptr; b := 0 |}] s.

End loop.

Definition Serialize_walk (fuel : nat) (ptr : bool) (struc : value)
  : option (outcome (list byte)) :=
  strucWalker Serialize_callback fuel ptr struc [].

(** Iterations of the main loop that a value can cause. *)
Definition sum_of {A : Type} (f : A → nat) : list A → nat :=
  fix go (l : list A) : nat :=
    match l with
    | [] => 0%nat
    | x :: rest => (f x + go rest)%nat
    end.

Fixpoint weight (v : value) : nat :=
  match v with
  | VStruct _ fields => 2 + sum_of weight fields
  | VSlice _ items => 2 + sum_of weight items
  | _ => 0
  end%nat.

Definition pair_weight (p : pair) : nat :=
  (1 + sum_of weight (drop (b p) (elements (a p))))%nat.

(** What the walk of one pair, and of a whole [wayBack], still writes
    according to [put]. *)
Definition put_pair (p : pair) : outcome (list byte) :=
  match a p with
  | VStruct _ _ | VSlice _ _ | VBytes _ =>
      if addressable_Serializable (a p) (a_CanAddr p)
      then Serialize_callback (a p) []
      else put_each (put (element_CanAddr (a p) (a_CanAddr p)))
             (drop (b p) (elements (a p)))
  | _ => Serialize_callback (a p) []
  end.

Fixpoint put_wayBack (wayBack : list pair) : outcome (list byte) :=
  match wayBack with
  | [] => Return []
  | p :: rest => w ← put_pair p; w' ← put_wayBack rest; mret (w ++ w')
  end.

(** *** What the wire format can carry *)

(** [wire_value v t]: [v] is a value of type [t], where [t] is built from
    unsigned integers, strings, byte sequences, lists of non-byte elements
    and structs of declared fields (no custom codec), every integer is
    within its width and every length fits its prefix (16 bits for strings
    and byte sequences, 32 bits for lists). *)
Inductive wire_value : value → type → Prop :=
| wire_uint k n :
    0 <= n < 2 ^ bits k → wire_value (VUint k n) (TUint k)
| wire_string s :
    Z.of_nat (length s) < 2 ^ 16 → wire_value (VString s) TString
| wire_bytes b :
    Z.of_nat (length b) < 2 ^ 16 → wire_value (VBytes b) (TSlice (TUint Uint8))
| wire_slice e items :
    e ≠ TUint Uint8 → Z.of_nat (length items) < 2 ^ 32 →
    Forall (λ el, wire_value el e) items →
    wire_value (VSlice e items) (TSlice e)
| wire_struct fields ts :
    Forall2 wire_value fields ts →
    wire_value (VStruct None fields) (TStruct None ts).

(** The same without the bounds on lengths: [v] is any Go value of such a
    type. *)
Inductive typed_value : value → type → Prop :=
| typed_uint k n :
    0 <= n < 2 ^ bits k → typed_value (VUint k n) (TUint k)
| typed_string s : typed_value (VString s) TString
| typed_bytes b : typed_value (VBytes b) (TSlice (TUint Uint8))
| typed_slice e items :
    e ≠ TUint Uint8 →
    Forall (λ el, typed_value el e) items →
    typed_value (VSlice e items) (TSlice e)
| typed_struct fields ts :
    Forall2 typed_value fields ts →
    typed_value (VStruct None fields) (TStruct None ts).

(** The outermost value of a call is not a bare slice (for which the walker
    reads and writes no count). *)
Definition not_slice (t : type) : Prop :=
  match t with TSlice _ => False | _ => True end.


End walker.

Arguments type C : clear implicits.
Arguments value C : clear implicits.

End utils.

(** ** Package [accounter] *)

Module accounter.

(** The account record, with the fields of the struct literal in
    [NewBlock]; the type of public keys belongs to package [crypto]. *)
Record Account (Public : Type) : Type := {
  Number : Z;
  PublicKey : Public;
  Balance : Z;
  UpdatedIndex : Z;
  Operations : Z
}.
Arguments Number {Public} _.
Arguments PublicKey {Public} _.
Arguments Balance {Public} _.
Arguments UpdatedIndex {Public} _.
Arguments Operations {Public} _.

End accounter.

(** ** Package [tx]: the ChangeKey operation *)

Module tx.

Import utils.

Section changekey.

(** Types of packages [crypto] and [accounter]. *)
Context {Public SignatureSerialized Micro : Type}.
(** [crypto.NewPublic]. *)
Context (NewPublic : list byte → Public + error).
(** [Public.SerializedPlain()]: the [crypto.PublicSerializedPlain] it
    returns, as [reflect] sees it. *)
Context (SerializedPlain : Public → value BytesWithoutLengthPrefix).
(** [Account.KeyChange] and [Account.BalanceSub]. *)
Context (KeyChange : accounter.Account Public → Public → Z → list Micro).
Context (BalanceSub : accounter.Account Public → Z → Z → list Micro).

Record ChangeKey : Type := {
  Source : Z;
  OperationId : Z;
  Fee : Z;
  Payload : list byte;
  PublicKey : Public;
  NewPublickey : list byte;
  Signature : SignatureSerialized
}.

Record changeKeyContext : Type := {
  ctxSource : accounter.Account Public;
  ctxNewPublic : Public
}.

(** What an [interface{}] context can hold. *)
Inductive context : Type :=
| changeKeyContext_ptr (params : changeKeyContext)
| other_context.

Record changeKeyToSign : Type := {
  toSignSource : Z;
  toSignOperation : Z;
  toSignFee : Z;
  toSignPayload : BytesWithoutLengthPrefix;
  toSignPublic : value BytesWithoutLengthPrefix;
  toSignNewPublic : list byte
}.

(** [reflect.ValueOf] of a [changeKeyToSign]: the fields in declared order;
    [Payload] is an interface holding a [*BytesWithoutLengthPrefix]. *)
Definition changeKeyToSign_value (s : changeKeyToSign)
  : value BytesWithoutLengthPrefix :=
  VStruct None
    [ VUint Uint32 (toSignSource s);
      VUint Uint32 (toSignOperation s);
      VUint Uint64 (toSignFee s);
      VInterface (Some (toSignPayload s));
      toSignPublic s;
      VBytes (toSignNewPublic s) ].

Definition GetFee (this : ChangeKey) : Z := Fee this.

Definition Validate (this : ChangeKey)
    (getAccount : Z → option (accounter.Account Public))
  : option context * option error :=
  match getAccount (Source this) with
  | None =>
      (None, Some (errorString
                     ("Source account " +:+ pretty (Source this) +:+ " not found")))
  | Some source =>
      if accounter.Balance source <? Fee this
      then (None, Some (errorString "Insufficient balance"))
      else match NewPublic (NewPublickey this) with
           | inr err => (None, Some err)
           | inl public =>
               (Some (changeKeyContext_ptr
                        {| ctxSource := source; ctxNewPublic := public |}), None)
           end
  end.

Definition Apply (this : ChangeKey) (index : Z) (context : context)
  : outcome (gmap Z (list Micro) * option error) :=
  let result : gmap Z (list Micro) := ∅ in
  match context with
  | changeKeyContext_ptr params =>
      let number := accounter.Number (ctxSource params) in
      let result :=
        <[number := KeyChange (ctxSource params) (ctxNewPublic params) index]> result in
      let result :=
        <[number := default [] (result !! number)
                    ++ BalanceSub (ctxSource params) (Fee this) index]> result in
      Return (result, None)
  | other_context => Panic "interface conversion"
  end.

Definition getBufferToSign (this : ChangeKey) : outcome (list byte) :=
  Serialize false
    (changeKeyToSign_value
       {| toSignSource := Source this;
          toSignOperation := OperationId this;
          toSignFee := Fee this;
          toSignPayload := {| Bytes := Payload this |};
          toSignPublic := SerializedPlain (PublicKey this);
          toSignNewPublic := NewPublickey this |}).

(** The to-be-signed form as the specification words it (section 4.B):
    source and operation id in 32 bits, fee in 64 bits, the payload with no
    length prefix, the source public key in plain serialization ([plain]),
    the new public key behind a 16-bit length prefix. *)
Definition to_be_signed_layout (this : ChangeKey) (plain : list byte) : list byte :=
  little_endian 4 (Source this)
  ++ little_endian 4 (OperationId this)
  ++ little_endian 8 (Fee this)
  ++ Payload this
  ++ plain
  ++ little_endian 2 (Z.of_nat (length (NewPublickey this)))
  ++ NewPublickey this.

Definition getSignature (this : ChangeKey) : SignatureSerialized := Signature this.

Definition getSourceInfo (this : ChangeKey) : Z * Z * Public :=
  (Source this, OperationId this, PublicKey this).

(** The [reflect] views of the [crypto.Public] and the
    [crypto.SignatureSerialized] held by a [ChangeKey]. *)
Context (Public_value : Public → value BytesWithoutLengthPrefix).
Context (Signature_value : SignatureSerialized → value BytesWithoutLengthPrefix).

(** [reflect.ValueOf(this).Elem()] for [this *ChangeKey]: the fields in
    declared order.  [*ChangeKey] has no [Deserialize] method, so it is not
    a [Serializable]. *)
Definition ChangeKey_value (this : ChangeKey) : value BytesWithoutLengthPrefix :=
  VStruct None
    [ VUint Uint32 (Source this);
      VUint Uint32 (OperationId this);
      VUint Uint64 (Fee this);
      VBytes (Payload this);
      Public_value (PublicKey this);
      VBytes (NewPublickey this);
      Signature_value (Signature this) ].

(** [this.Serialize(w)] for a [bytes.Buffer] [w]: the bytes written and the
    error of [w.Write]. *)
Definition ChangeKey_Serialize (this : ChangeKey) : outcome (list byte * option error) :=
  written ← Serialize true (ChangeKey_value this); mret (written, None).

(** The wire form of a ChangeKey, field by field: [public] and [signature]
    are the encodings of the source key and of the signature. *)
Definition wire_layout (this : ChangeKey) (public signature : list byte) : list byte :=
  little_endian 4 (Source this)
  ++ little_endian 4 (OperationId this)
  ++ little_endian 8 (Fee this)
  ++ little_endian 2 (Z.of_nat (length (Payload this)))
  ++ Payload this
  ++ public
  ++ little_endian 2 (Z.of_nat (length (NewPublickey this)))
  ++ NewPublickey this
  ++ signature.

End changekey.

Arguments ChangeKey : clear implicits.
Arguments changeKeyContext : clear implicits.
Arguments context : clear implicits.

End tx.

(** ** Package [common] *)

Module common.

(** [common.Version]: the fields of the literal in [SerializeHeader]; both
    are 16 bits wide on the wire. *)
Record Version : Type := { Major : Z; Minor : Z }.

End common.

(** ** Package [sha256] of the Go library *)

Module sha256.

(** A [hash.Hash] made by [sha256.New()]: the bytes written so far.
    [Sum256] is the digest function. *)
Record digest : Type := { written : list byte }.

Definition New : digest := {| written := [] |}.

Definition Write (h : digest) (p : list byte) : digest :=
  {| written := written h ++ p |}.

(** [h.Sum(b)] appends the digest of what was written to [b]. *)
Definition Sum (Sum256 : list byte → list byte) (h : digest) (b : list byte)
  : list byte :=
  b ++ Sum256 (written h).

End sha256.

(** ** Package [safebox]: blocks *)

Module safebox.

Import utils.

Section block.

(** Custom codecs met by the walker in this package. *)
Context {C : Type} `{!Serializable C}.
(** [tx.Tx] with its methods [GetFee] and [SerializeUnderlying] (the bytes
    it writes), and its [reflect] view and type. *)
Context {Tx : Type}.
Context (Tx_GetFee : Tx → Z) (Tx_SerializeUnderlying : Tx → list byte).
(** [sha256.Sum256]. *)
Context (Sum256 : list byte → list byte).
(** [crypto.Public], [crypto.NewPublic] and the [reflect] view of a
    [*crypto.Public]. *)
Context {Public : Type}.
Context (NewPublic : list byte → Public + error).
Context (Public_value : Public → value C).
(** [common.TargetBase], [common.NewTarget], [TargetBase.GetCompact]. *)
Context {TargetBase : Type}.
Context (NewTarget : Z → TargetBase) (GetCompact : TargetBase → Z).
(** [getReward] of this package. *)
Context (getReward : Z → Z).
(** [accounter.AccountHashBuffer] and [Account.GetHashBuffer]. *)
Context (AccountHashBuffer : type C).
Context (GetHashBuffer : accounter.Account Public → value C).

Record SerializedBlockHeader : Type := {
  HeaderOnly : Z;
  Version : common.Version;
  Index : Z;
  Miner : list byte;
  Reward : Z;
  Fee : Z;
  Time : Z;
  Target : Z;
  Nonce : Z;
  Payload : list byte;
  PrevSafeboxHash : list byte;
  OperationsHash : list byte;
  Pow : list byte
}.

Record SerializedBlock : Type := {
  Header : SerializedBlockHeader;
  Operations : list Tx
}.

Record BlockMetadata : Type := {
  metaIndex : Z;
  metaMiner : list byte;
  metaVersion : common.Version;
  metaTimestamp : Z;
  metaTarget : Z;
  metaNonce : Z;
  metaPayload : list byte;
  metaPrevSafeBoxHash : list byte;
  metaOperations : list Tx
}.

Record Block : Type := {
  blockMeta : BlockMetadata;
  blockMiner : Public;
  blockTarget : TargetBase;
  blockOperations : list Tx;
  blockOperationsHash : list byte;
  blockFee : Z;
  blockReward : Z;
  blockHash : list byte;
  blockAccounts : list (accounter.Account Public)
}.

Record blockHashBuffer : Type := {
  hashIndex : Z;
  hashAccounts : list (value C);
  hashTimestamp : Z
}.

Definition blockHashBuffer_value (b : blockHashBuffer) : value C :=
  VStruct None
    [ VUint Uint32 (hashIndex b);
      VSlice AccountHashBuffer (hashAccounts b);
      VUint Uint32 (hashTimestamp b) ].

(** The body of the [for _, it := range operations] loop, with [hash] the
    running value. *)
Fixpoint GetOperationsHash_loop (hash : list byte) (operations : list Tx)
  : list byte :=
  match operations with
  | [] => hash
  | it :: rest =>
      let h := sha256.New in
      let h := sha256.Write h (Tx_SerializeUnderlying it) in
      GetOperationsHash_loop (Sum256 (sha256.Sum Sum256 h hash)) rest
  end.

Definition GetOperationsHash (operations : list Tx) : list byte :=
  GetOperationsHash_loop (Sum256 []) operations.

(** The operations hash as the specification words it (section 4.C): a
    left fold from [SHA256("")] that hashes the accumulator followed by the
    digest of the operation's underlying encoding. *)
Definition operations_hash_fold (operations : list Tx) : list byte :=
  fold_left (λ acc op, Sum256 (acc ++ Sum256 (Tx_SerializeUnderlying op)))
    operations (Sum256 []).

(** The sum of the fees of a list of operations, in the integers. *)
Definition fee_sum (operations : list Tx) : Z :=
  foldr Z.add 0 (map Tx_GetFee operations).

(** The [for index, it := range meta.Operations] loop of [NewBlock]:
    [operations] (the entries assigned so far) and [fee] afterwards. *)
Fixpoint NewBlock_loop (operations : list Tx) (fee : Z) (rest : list Tx)
  : list Tx * Z :=
  match rest with
  | [] => (operations, fee)
  | it :: rest' =>
      NewBlock_loop (operations ++ [it]) (uint64 (fee + Tx_GetFee it)) rest'
  end.

Definition GetIndex (block : Block) : Z := metaIndex (blockMeta block).
Definition GetMiner (block : Block) : Public := blockMiner block.
Definition GetReward (block : Block) : Z := blockReward block.
Definition GetFee (block : Block) : Z := blockFee block.
Definition GetVersion (block : Block) : common.Version := metaVersion (blockMeta block).
Definition GetTimestamp (block : Block) : Z := metaTimestamp (blockMeta block).
Definition GetTarget (block : Block) : TargetBase := blockTarget block.
Definition GetNonce (block : Block) : Z := metaNonce (blockMeta block).
Definition GetPayload (block : Block) : list byte := metaPayload (blockMeta block).
Definition GetPrevSafeBoxHash (block : Block) : list byte :=
  metaPrevSafeBoxHash (blockMeta block).
Definition GetOperationsHash_of (block : Block) : list byte := blockOperationsHash block.
Definition GetPow (block : Block) : list byte := [].
Definition GetOperations (block : Block) : list Tx := blockOperations block.

Definition GetAccountsSerialized (block : Block) : list (value C) :=
  map GetHashBuffer (blockAccounts block).

Definition GetHash (block : Block) : outcome (list byte) :=
  buf ← Serialize false
          (blockHashBuffer_value
             {| hashIndex := GetIndex block;
                hashAccounts := GetAccountsSerialized block;
                hashTimestamp := GetTimestamp block |});
  let hash := sha256.New in
  let hash := sha256.Write hash buf in
  mret (sha256.Sum Sum256 hash []).

(** [block.Accounts = accounts] and [block.Hash = hash]. *)
Definition set_Accounts (block : Block) (accounts : list (accounter.Account Public))
  : Block :=
  {| blockMeta := blockMeta block; blockMiner := blockMiner block;
     blockTarget := blockTarget block; blockOperations := blockOperations block;
     blockOperationsHash := blockOperationsHash block; blockFee := blockFee block;
     blockReward := blockReward block; blockHash := blockHash block;
     blockAccounts := accounts |}.

Definition set_Hash (block : Block) (hash : list byte) : Block :=
  {| blockMeta := blockMeta block; blockMiner := blockMiner block;
     blockTarget := blockTarget block; blockOperations := blockOperations block;
     blockOperationsHash := blockOperationsHash block; blockFee := blockFee block;
     blockReward := blockReward block; blockHash := hash;
     blockAccounts := blockAccounts block |}.

(** Returns [(block, err)]; a nil block is [None].  The five accounts made
    by [make] are all assigned by the loop over [i], so the slice is given
    here as it stands after that loop. *)
Definition NewBlock (meta : BlockMetadata) : outcome (option Block * option error) :=
  let '(operations, fee) := NewBlock_loop [] 0 (metaOperations meta) in
  match NewPublic (metaMiner meta) with
  | inr err => Return (None, Some err)
  | inl miner =>
      let block :=
        {| blockMeta := meta;
           blockMiner := miner;
           blockTarget := NewTarget (metaTarget meta);
           blockOperations := operations;
           blockOperationsHash := GetOperationsHash operations;
           blockFee := fee;
           blockReward := getReward (metaIndex meta);
           blockHash := [];
           blockAccounts := [] |} in
      let block :=
        set_Accounts block
          (map (λ i : Z,
                  {| accounter.Number := uint32 (i + GetIndex block);
                     accounter.PublicKey := GetMiner block;
                     accounter.Balance := 0;
                     accounter.UpdatedIndex := GetIndex block;
                     accounter.Operations := 0 |})
               (seqZ 0 5)) in
      hash ← GetHash block;
      mret (Some (set_Hash block hash), None)
  end.

Definition SerializeHeader (block : Block) (willAppendOperations : bool)
  : outcome SerializedBlockHeader :=
  let headerOnly := if willAppendOperations then 2 else 3 in
  miner ← Serialize true (Public_value (GetMiner block));
  mret {| HeaderOnly := headerOnly;
          Version := {| common.Major := 1; common.Minor := 1 |};
          Index := GetIndex block;
          Miner := miner;
          Reward := GetReward block;
          Fee := GetFee block;
          Time := GetTimestamp block;
          Target := GetCompact (GetTarget block);
          Nonce := GetNonce block;
          Payload := GetPayload block;
          PrevSafeboxHash := GetPrevSafeBoxHash block;
          OperationsHash := GetOperationsHash_of block;
          Pow := GetPow block |}.

Definition Block_Serialize (this : Block) : outcome SerializedBlock :=
  header ← SerializeHeader this true;
  mret {| Header := header; Operations := blockOperations this |}.

(** The [reflect] views and types of the serialized records. *)
Context (Tx_type : type C) (Tx_value : Tx → value C).

Definition Version_value (v : common.Version) : value C :=
  VStruct None [VUint Uint16 (common.Major v); VUint Uint16 (common.Minor v)].

Definition SerializedBlockHeader_value (h : SerializedBlockHeader) : value C :=
  VStruct None
    [ VUint Uint8 (HeaderOnly h);
      Version_value (Version h);
      VUint Uint32 (Index h);
      VBytes (Miner h);
      VUint Uint64 (Reward h);
      VUint Uint64 (Fee h);
      VUint Uint32 (Time h);
      VUint Uint32 (Target h);
      VUint Uint32 (Nonce h);
      VBytes (Payload h);
      VBytes (PrevSafeboxHash h);
      VBytes (OperationsHash h);
      VBytes (Pow h) ].

Definition SerializedBlock_value (b : SerializedBlock) : value C :=
  VStruct None
    [ SerializedBlockHeader_value (Header b);
      VSlice Tx_type (map Tx_value (Operations b)) ].

Definition SerializedBlock_type : type C :=
  TStruct None
    [ TStruct None
        [ TUint Uint8;
          TStruct None [TUint Uint16; TUint Uint16];
          TUint Uint32; TSlice (TUint Uint8); TUint Uint64; TUint Uint64;
          TUint Uint32; TUint Uint32; TUint Uint32;
          TSlice (TUint Uint8); TSlice (TUint Uint8); TSlice (TUint Uint8);
          TSlice (TUint Uint8) ];
      TSlice Tx_type ].

(** The zero [SerializedBlock], as [make] fills a new slice. *)
Definition SerializedBlock_zero : SerializedBlock :=
  {| Header := {| HeaderOnly := 0;
                  Version := {| common.Major := 0; common.Minor := 0 |};
                  Index := 0; Miner := []; Reward := 0; Fee := 0; Time := 0;
                  Target := 0; Nonce := 0; Payload := [];
                  PrevSafeboxHash := []; OperationsHash := []; Pow := [] |};
     Operations := [] |}.

End block.

Arguments SerializedBlockHeader : clear implicits.
Arguments SerializedBlock : clear implicits.
Arguments BlockMetadata : clear implicits.
Arguments Block : clear implicits.

End safebox.

(** ** Package [pasl]: the peer connection *)

#[global] Instance byte_eq_dec : EqDecision byte := Byte.byte_eq_dec.

Module pasl.

Import utils.

(** [copy(dst, src)]: [dst] afterwards. *)
Definition copy {A : Type} (dst src : list A) : list A :=
  take (length dst) src ++ drop (length src) dst.

(** [bytes.Equal]. *)
Definition bytes_Equal (a b : list byte) : bool := bool_decide (a = b).

(** The result codes a handler sets on its request. *)
Inductive resultCode : Type := success | invalidDataBufferInfo.

(** A [requestResponse]: the code last given to [result.setError], if
    any. *)
Record requestResponse : Type := { result : option resultCode }.

Definition setError (request : requestResponse) (code : resultCode)
  : requestResponse :=
  {| result := Some code |}.

(** Backing arrays of byte slices live in a heap; a slice made by [make]
    is the address of its array. *)
Definition loc := nat.

Record pascalConnectionState : Type := {
  height : Z;
  prevSafeboxHash : loc
}.

Section connection.

Context {C : Type} `{!Serializable C}.
Context {Tx Public TargetBase PeerInfo : Type}.
Context (Tx_type : type C) (Tx_value : Tx → value C).
Context (Public_value : Public → value C) (GetCompact : TargetBase → Z).
(** [blockchain.GetBlock]; a nil block is [None]. *)
Context (GetBlock : Z → option (safebox.Block Tx Public TargetBase)).
(** [defaults.NetworkBlocksPerRequest]. *)
Context (NetworkBlocksPerRequest : Z).

Abbreviation SerializedBlock := (safebox.SerializedBlock Tx).
Abbreviation SerializedBlockHeader := safebox.SerializedBlockHeader.

(** What the connection sends on its channels, in order. *)
Inductive event : Type :=
| StateUpdate
| PeerUpdate (peer : PeerInfo)
| NewBlock (block : SerializedBlock) (shouldBroadcast : bool)
| DownloadingDone.

(** The fields of [PascalConnection] the handlers below use, the heap of
    byte arrays, and the events sent so far. *)
Record PascalConnection : Type := {
  nonce : list byte;
  state : option pascalConnectionState;
  heap : gmap loc (list byte);
  sent : list event
}.

Definition send (this : PascalConnection) (events : list event) : PascalConnection :=
  {| nonce := nonce this; state := state this; heap := heap this;
     sent := sent this ++ events |}.

(** The fields of [packetHello] the handler reads. *)
Record packetHello : Type := {
  helloNonce : list byte;
  helloBlock : SerializedBlockHeader;
  helloPeers : list PeerInfo
}.

(** [utils.Deserialize(&packet, bytes.NewBuffer(payload))] for a
    [packetHello] and for a [packetGetBlocksResponse]: the packet
    afterwards and the error returned. *)
Context (Deserialize_packetHello : list byte → outcome (packetHello * option error)).
Context (Deserialize_packetGetBlocksResponse :
           list byte → outcome (list SerializedBlock * option error)).

Definition SetState (this : PascalConnection) (height : Z)
    (prevSafeboxHash : list byte) : PascalConnection :=
  let array := fresh (dom (heap this)) in
  let buffer := replicate 32 Byte.x00 in
  let state := {| height := height; prevSafeboxHash := array |} in
  let buffer := copy (take 32 buffer) prevSafeboxHash in
  {| nonce := nonce this; state := Some state;
     heap := <[array := buffer]> (heap this);
     sent := sent this ++ [StateUpdate] |}.

(** Returns the height and the slice held by the state. *)
Definition GetState (this : PascalConnection) : outcome (Z * loc) :=
  match state this with
  | Some st => Return (height st, prevSafeboxHash st)
  | None => Panic "nil pointer dereference"
  end.

(** The [reflect] view of a [packetGetBlocksRequest]. *)
Definition packetGetBlocksRequest_value (FromIndex ToIndex : Z) : value C :=
  VStruct None [VUint Uint32 FromIndex; VUint Uint32 ToIndex].

(** The [reflect] view of a [packetGetBlocksResponse]. *)
Definition packetGetBlocksResponse_value (Blocks : list SerializedBlock) : value C :=
  VStruct None
    [VSlice (safebox.SerializedBlock_type Tx_type)
       (map (safebox.SerializedBlock_value Tx_type Tx_value) Blocks)].

(** The request packet [StartBlocksDownloading] hands to [sendRequest]. *)
Definition StartBlocksDownloading_packet (from to : Z) : outcome (list byte) :=
  Serialize false (packetGetBlocksRequest_value from to).

(** The callback [onSuccess] that [StartBlocksDownloading] hands to
    [sendRequest]; [response] is [None] for a nil response.  The deferred
    send on [downloadingDone] runs on every way out, a panic included. *)
Definition StartBlocksDownloading_onSuccess (this : PascalConnection)
    (response : option requestResponse) (payload : list byte)
  : PascalConnection * outcome (option error) :=
  let '(this1, returned) :=
    match response with
    | None => (this, Return (Some (errorString "GetBlocks request failed")))
    | Some _ =>
        match Deserialize_packetGetBlocksResponse payload with
        | Panic msg => (this, Panic msg)
        | Return (_, Some err) => (this, Return (Some err))
        | Return (Blocks, None) =>
            (send this (map (λ it, NewBlock it false) Blocks), Return None)
        end
    end in
  (send this1 [DownloadingDone], returned).

Definition onHelloCommon (this : PascalConnection) (request : requestResponse)
    (payload : list byte)
  : outcome (PascalConnection * requestResponse * option error) :=
  '(packet, err) ← Deserialize_packetHello payload;
  match err with
  | Some err => Return (this, setError request invalidDataBufferInfo, Some err)
  | None =>
      if bytes_Equal (helloNonce packet) (nonce this)
      then Return (this, request, Some (errorString "[P2P] Loopback connection"))
      else
        let this1 :=
          SetState this (safebox.Index (helloBlock packet))
            (safebox.PrevSafeboxHash (helloBlock packet)) in
        let this2 := send this1 (map PeerUpdate (helloPeers packet)) in
        Return (this2, request, None)
  end.

(** [hello] is what [generateHello] returns for this connection. *)
Definition onHelloRequest (hello : list byte) (this : PascalConnection)
    (request : requestResponse) (payload : list byte)
  : outcome (PascalConnection * requestResponse * list byte * option error) :=
  '(this', request', err) ← onHelloCommon this request payload;
  match err with
  | Some err => Return (this', request', [], Some err)
  | None => Return (this', setError request' success, hello, None)
  end.

(** The [for index := packet.FromIndex; index <= packet.ToIndex; index++]
    loop; [index] is a [uint32] and wraps.  [None] when [fuel] iterations
    do not leave the loop. *)
Fixpoint onGetBlocksRequest_loop (fuel : nat) (index ToIndex : Z)
    (serialized : list SerializedBlock) : option (outcome (list SerializedBlock)) :=
  match fuel with
  | O => None
  | S fuel' =>
      if index <=? ToIndex then
        match GetBlock index with
        | Some block =>
            match safebox.Block_Serialize Public_value GetCompact block with
            | Return b =>
                onGetBlocksRequest_loop fuel' (uint32 (index + 1)) ToIndex
                  (serialized ++ [b])
            | Panic msg => Some (Panic msg)
            end
        | None => Some (Return serialized)
        end
      else Some (Return serialized)
  end.

(** The request as decoded: [FromIndex] and [ToIndex] of the packet. *)
Definition Deserialize_packetGetBlocksRequest (payload : list byte)
  : outcome (Z * Z * option error) :=
  '(packet, _, err) ← Deserialize (packetGetBlocksRequest_value 0 0) payload;
  match packet with
  | VStruct None [VUint Uint32 FromIndex; VUint Uint32 ToIndex] =>
      Return (FromIndex, ToIndex, err)
  | _ => Panic "unreachable"
  end.

(** The range after the swap and the clamp: [(FromIndex, ToIndex, total)]. *)
Definition onGetBlocksRequest_range (FromIndex ToIndex : Z) : Z * Z * Z :=
  let '(ToIndex, FromIndex) :=
    if ToIndex <? FromIndex then (FromIndex, ToIndex) else (ToIndex, FromIndex) in
  let total := uint32 (ToIndex - FromIndex) in
  if NetworkBlocksPerRequest <? total
  then (FromIndex, uint32 (FromIndex + NetworkBlocksPerRequest), NetworkBlocksPerRequest)
  else (FromIndex, ToIndex, total).

(** The slice [serialized] when the loop is left. *)
Definition onGetBlocksRequest_serialized (fuel : nat) (FromIndex ToIndex : Z)
  : option (outcome (list SerializedBlock)) :=
  let '(FromIndex, ToIndex, total) := onGetBlocksRequest_range FromIndex ToIndex in
  let serialized := replicate (Z.to_nat total) safebox.SerializedBlock_zero in
  onGetBlocksRequest_loop fuel FromIndex ToIndex serialized.

Definition onGetBlocksRequest (fuel : nat) (this : PascalConnection)
    (request : requestResponse) (payload : list byte)
  : option (outcome (list byte * requestResponse * option error)) :=
  match Deserialize_packetGetBlocksRequest payload with
  | Panic msg => Some (Panic msg)
  | Return (_, _, Some err) => Some (Return ([], request, Some err))
  | Return (FromIndex, ToIndex, None) =>
      match onGetBlocksRequest_serialized fuel FromIndex ToIndex with
      | None => None
      | Some (Panic msg) => Some (Panic msg)
      | Some (Return serialized) =>
          Some (out ← Serialize false (packetGetBlocksResponse_value serialized);
                mret (out, setError request success, None))
      end
  end.

End connection.

Arguments event : clear implicits.
Arguments PascalConnection : clear implicits.
Arguments packetHello : clear implicits.

End pasl.

(** ** A toy instance of the collaborating packages

    Packages [crypto], [accounter], [blockchain] and the [sha256] digest are
    outside the sources at hand; the definitions above take them as
    parameters.  This instance runs the definitions on concrete inputs. *)

Module toy.

Import utils.

(** Public keys are non-empty byte strings. *)
Definition Public : Type := list byte.

Definition NewPublic (b : list byte) : Public + error :=
  match b with
  | [] => inr (errorString "invalid public key")
  | _ => inl b
  end.

Definition SerializedPlain (pk : Public) : value BytesWithoutLengthPrefix :=
  VStruct None [VUint Uint16 714; VInterface (Some {| Bytes := pk |})].

(** A signature is valid when it is the key followed by the message. *)
Definition SignatureSerialized : Type := list byte.

Definition Verify (pk : Public) (msg : list byte) (sig : SignatureSerialized) : bool :=
  bool_decide (sig = pk ++ msg).

Inductive Micro : Type :=
| MicroKeyChange (number : Z) (key : Public) (index : Z)
| MicroBalanceSub (number : Z) (amount : Z) (index : Z).

Definition KeyChange (a : accounter.Account Public) (key : Public) (index : Z)
  : list Micro :=
  [MicroKeyChange (accounter.Number a) key index].

Definition BalanceSub (a : accounter.Account Public) (amount index : Z)
  : list Micro :=
  [MicroBalanceSub (accounter.Number a) amount index].

(** A digest of one byte: the length of the message modulo 256. *)
Definition Sum256 (b : list byte) : list byte := [byte_of_Z (Z.of_nat (length b))].

Definition Tx : Type := tx.ChangeKey Public SignatureSerialized.

Definition Tx_SerializeUnderlying (op : Tx) : list byte :=
  PutUint 4 (tx.Source op) ++ PutUint 8 (tx.Fee op).

Definition Tx_type : type BytesWithoutLengthPrefix :=
  TStruct None [TUint Uint32; TUint Uint64].

Definition Tx_value (op : Tx) : value BytesWithoutLengthPrefix :=
  VStruct None [VUint Uint32 (tx.Source op); VUint Uint64 (tx.Fee op)].

Definition Public_value (pk : Public) : value BytesWithoutLengthPrefix :=
  VStruct None [VBytes pk].

Definition TargetBase : Type := Z.
Definition NewTarget (compact : Z) : TargetBase := compact.
Definition GetCompact (t : TargetBase) : Z := t.
Definition getReward (index : Z) : Z := 50.

Definition AccountHashBuffer : type BytesWithoutLengthPrefix :=
  TStruct None [TUint Uint32; TUint Uint64].

Definition GetHashBuffer (a : accounter.Account Public)
  : value BytesWithoutLengthPrefix :=
  VStruct None [VUint Uint32 (accounter.Number a); VUint Uint64 (accounter.Balance a)].

Definition PeerInfo : Type := string.

(** An operation of account [source] paying [fee]. *)
Definition operation (source fee : Z) : Tx :=
  {| tx.Source := source; tx.OperationId := 1; tx.Fee := fee;
     tx.Payload := []; tx.PublicKey := [Byte.x02];
     tx.NewPublickey := [Byte.x03]; tx.Signature := [] |}.

Definition metadata (index : Z) (operations : list Tx) : safebox.BlockMetadata Tx :=
  {| safebox.metaIndex := index;
     safebox.metaMiner := [Byte.x02];
     safebox.metaVersion := {| common.Major := 1; common.Minor := 1 |};
     safebox.metaTimestamp := 0;
     safebox.metaTarget := 0;
     safebox.metaNonce := 0;
     safebox.metaPayload := [];
     safebox.metaPrevSafeBoxHash := [];
     safebox.metaOperations := operations |}.

Definition NewBlock :=
  safebox.NewBlock tx.GetFee Tx_SerializeUnderlying Sum256 NewPublic NewTarget
    getReward AccountHashBuffer GetHashBuffer.

(** A block with no operations at height [index]. *)
Definition block (index : Z) : safebox.Block Tx Public TargetBase :=
  {| safebox.blockMeta := metadata index [];
     safebox.blockMiner := [Byte.x02];
     safebox.blockTarget := 0;
     safebox.blockOperations := [];
     safebox.blockOperationsHash := Sum256 [];
     safebox.blockFee := 0;
     safebox.blockReward := 50;
     safebox.blockHash := [];
     safebox.blockAccounts := [] |}.

(** A chain that has every block, and one that has none. *)
Definition GetBlock_full (index : Z) : option (safebox.Block Tx Public TargetBase) :=
  Some (block index).

Definition GetBlock_none (index : Z) : option (safebox.Block Tx Public TargetBase) :=
  None.

(** A hello decoder: the nonce is the first four bytes of the payload. *)
Definition Deserialize_packetHello (payload : list byte)
  : outcome (pasl.packetHello PeerInfo * option error) :=
  Return ({| pasl.helloNonce := take 4 payload;
             pasl.helloBlock :=
               {| safebox.HeaderOnly := 3;
                  safebox.Version := {| common.Major := 1; common.Minor := 1 |};
                  safebox.Index := 9; safebox.Miner := []; safebox.Reward := 0;
                  safebox.Fee := 0; safebox.Time := 0; safebox.Target := 0;
                  safebox.Nonce := 0; safebox.Payload := [];
                  safebox.PrevSafeboxHash := drop 4 payload;
                  safebox.OperationsHash := []; safebox.Pow := [] |};
             pasl.helloPeers := ["peer-a"; "peer-b"] |}, None).

Definition connection (nonce : list byte) : pasl.PascalConnection Tx PeerInfo :=
  {| pasl.nonce := nonce; pasl.state := None; pasl.heap := ∅; pasl.sent := [] |}.


Definition sample_value : value BytesWithoutLengthPrefix :=
  VStruct None
    [ VUint Uint8 2;
      VStruct None [VUint Uint16 1; VUint Uint16 258];
      VSlice (TStruct None [TUint Uint32; TString])
        [ VStruct None [VUint Uint32 7; VString [Byte.x61]];
          VStruct None [VUint Uint32 8; VString []] ];
      VBytes [Byte.xff; Byte.x00];
      VUint Uint64 (2 ^ 40) ].

Definition Signature_value (sig : SignatureSerialized)
  : value BytesWithoutLengthPrefix :=
  VStruct None [VBytes sig].

End toy.

(** * Properties *)

(** ** Bytes and little-endian integers *)

Section bytes_facts.

Lemma Z_of_byte_range (b : byte) : 0 <= Z_of_byte b < 256.
Proof.
  unfold Z_of_byte. pose proof (Byte.to_N_bounded b). lia.
Qed.

Lemma Z_of_byte_of_Z (z : Z) : Z_of_byte (byte_of_Z z) = z mod 256.
Proof.
  unfold Z_of_byte, byte_of_Z.
  pose proof (Z.mod_pos_bound z 256 ltac:(lia)) as Hb.
  destruct (Byte.of_N (Z.to_N (z mod 256))) as [b|] eqn:E.
  - apply Byte.to_of_N in E. rewrite E. apply Z2N.id. lia.
  - apply Byte.of_N_None_iff in E.
    assert (Z.of_N (Z.to_N (z mod 256)) = z mod 256) by (apply Z2N.id; lia).
    lia.
Qed.

Lemma byte_of_Z_of_byte (b : byte) : byte_of_Z (Z_of_byte b) = b.
Proof.
  unfold byte_of_Z, Z_of_byte.
  pose proof (Byte.to_N_bounded b).
  rewrite Z.mod_small by lia.
  rewrite N2Z.id. by rewrite Byte.of_to_N.
Qed.

Lemma lor_shiftl_8 (a b : Z) :
  0 <= a < 256 → Z.lor a (Z.shiftl b 8) = a + 256 * b.
Proof.
  intros Ha.
  assert (Hland : Z.land a (Z.shiftl b 8) = 0).
  { apply Z.bits_inj'. intros n Hn.
    rewrite Z.land_spec, Z.bits_0.
    destruct (Z.lt_ge_cases n 8) as [Hlt|Hge].
    - rewrite (Z.shiftl_spec_low b 8 n) by lia. apply andb_false_r.
    - rewrite <- (Z.mod_small a (2 ^ 8)) by lia.
      rewrite Z.mod_pow2_bits_high by lia. reflexivity. }
  pose proof (Z.add_lor_land a (Z.shiftl b 8)) as H.
  rewrite Hland in H. rewrite Z.shiftl_mul_pow2 in * by lia.
  change (2 ^ 8) with 256 in *. lia.
Qed.

Lemma PutUint_length (n : nat) (v : Z) : length (PutUint n v) = n.
Proof.
  revert v. induction n as [|n IH]; intros v; simpl; [done|]. by rewrite IH.
Qed.

Lemma Uint_PutUint (n : nat) (v : Z) :
  Uint (PutUint n v) = v mod 2 ^ (8 * Z.of_nat n).
Proof.
  revert v. induction n as [|n IH]; intros v.
  - simpl. by rewrite Z.mod_1_r.
  - cbn [PutUint Uint]. rewrite IH, Z_of_byte_of_Z.
    rewrite lor_shiftl_8 by (apply Z.mod_pos_bound; lia).
    rewrite Z.shiftr_div_pow2 by lia.
    replace (2 ^ (8 * Z.of_nat (S n))) with (256 * 2 ^ (8 * Z.of_nat n)).
    + rewrite Z.rem_mul_r by lia. reflexivity.
    + replace (8 * Z.of_nat (S n)) with (8 + 8 * Z.of_nat n) by lia.
      rewrite Z.pow_add_r by lia. reflexivity.
Qed.

Lemma Uint_PutUint_small (n : nat) (v : Z) :
  0 <= v < 2 ^ (8 * Z.of_nat n) → Uint (PutUint n v) = v.
Proof. intros. rewrite Uint_PutUint. by apply Z.mod_small. Qed.


(** Reading exactly what is there succeeds and leaves the rest. *)
Lemma ReadFull_app (bs rest : list byte) :
  ReadFull (length bs) (bs ++ rest) = (inl bs, rest).
Proof.
  unfold ReadFull, Buffer_Read.
  destruct bs as [|b bs].
  - simpl. destruct rest; simpl; reflexivity.
  - cbn [app]. change (b :: bs ++ rest) with ((b :: bs) ++ rest).
    rewrite take_app_length, drop_app_length.
    rewrite Nat.leb_refl. reflexivity.
Qed.

(** A reader holding fewer bytes than asked for is drained and the read
    fails. *)
Lemma ReadFull_short (n : nat) (r : list byte) :
  (length r < n)%nat → ∃ e, ReadFull n r = (inr e, []).
Proof.
  intros Hlt. unfold ReadFull, Buffer_Read.
  destruct r as [|b r].
  - destruct n; [lia|]. simpl. eauto.
  - rewrite take_ge by lia.
    destruct (n <=? length (b :: r))%nat eqn:E.
    + apply Nat.leb_le in E. lia.
    + eauto.
Qed.

Lemma binary_Read_uint_app (n : nat) (v : Z) (rest : list byte) :
  binary_Read_uint n (PutUint n v ++ rest) = (inl (v mod 2 ^ (8 * Z.of_nat n)), rest).
Proof.
  unfold binary_Read_uint.
  rewrite <- (PutUint_length n v) at 1.
  by rewrite ReadFull_app, Uint_PutUint.
Qed.

End bytes_facts.

(** ** The codec of package [utils] *)

Section codec_facts.

Context {C : Type} `{!utils.Serializable C}.

Import utils.

(** Induction on values through the lists of fields and elements. *)
Lemma value_nested_ind (P : value C → Prop) :
  (∀ k n, P (VUint k n)) →
  (∀ s, P (VString s)) →
  (∀ b, P (VBytes b)) →
  (∀ e items, Forall P items → P (VSlice e items)) →
  (∀ ser fields, Forall P fields → P (VStruct ser fields)) →
  (∀ p, P (VPtr p)) →
  (∀ p, P (VInterface p)) →
  P VOther →
  ∀ v, P v.
Proof.
  intros Huint Hstring Hbytes Hslice Hstruct Hptr Hinterface Hother.
  fix rec 1. intros v.
  destruct v as [k n|s|b|e items|ser fields|p|p|].
  - apply Huint.
  - apply Hstring.
  - apply Hbytes.
  - apply Hslice. induction items as [|x l IHl]; constructor; [apply rec|apply IHl].
  - apply Hstruct. induction fields as [|x l IHl]; constructor; [apply rec|apply IHl].
  - apply Hptr.
  - apply Hinterface.
  - apply Hother.
Qed.

Lemma bits_size (k : uintKind) : bits k = 8 * Z.of_nat (size k).
Proof. reflexivity. Qed.

Lemma read_uint_PutUint (n : nat) (v : Z) (rest : list byte) :
  0 <= v < 2 ^ (8 * Z.of_nat n) →
  read_uint n (PutUint n v ++ rest) = (v, rest).
Proof.
  intros Hv. unfold read_uint.
  rewrite binary_Read_uint_app. by rewrite Z.mod_small.
Qed.

Lemma read_bytes_app (b rest : list byte) :
  read_bytes (Z.of_nat (length b)) (b ++ rest) = (b, rest).
Proof.
  unfold read_bytes, binary_Read_bytes.
  by rewrite Nat2Z.id, ReadFull_app.
Qed.

Lemma wrap_small (w z : Z) : 0 <= z < 2 ^ w → wrap w z = z.
Proof. intros. unfold wrap. by apply Z.mod_small. Qed.

Lemma wrap_range (w z : Z) : 0 <= w → 0 <= wrap w z < 2 ^ w.
Proof. intros. unfold wrap. apply Z.mod_pos_bound. lia. Qed.

(** A length-prefixed byte string is read back. *)
Lemma read_prefixed (b rest : list byte) :
  Z.of_nat (length b) < 2 ^ 16 →
  read_uint 2 ((PutUint 2 (uint16 (Z.of_nat (length b))) ++ b) ++ rest)
    = (Z.of_nat (length b), b ++ rest).
Proof.
  intros Hlen. rewrite <- app_assoc.
  unfold uint16. rewrite wrap_small by lia.
  apply read_uint_PutUint. change (8 * Z.of_nat 2) with 16. lia.
Qed.

(** What [put] writes for a wire value is read back by [new] into a fresh
    zero value of its type, leaving the rest of the stream. *)
Definition reads_back (v : value C) : Prop :=
  ∀ t addr, wire_value v t →
    ∃ bs, put addr v = Return bs ∧
          ∀ rest, new t (bs ++ rest) = Return (v, rest).

Lemma put_each_new_each (fields : list (value C)) (ts : list (type C)) (addr : bool) :
  Forall reads_back fields → Forall2 wire_value fields ts →
  ∃ bs, put_each (put addr) fields = Return bs ∧
        ∀ rest, new_each new ts (bs ++ rest) = Return (fields, rest).
Proof.
  intros HP Hty. revert HP.
  induction Hty as [|v t fields ts Hv Hrest IH]; intros HP.
  - exists []. split; [done|]. intros rest. reflexivity.
  - inversion HP as [|? ? Hhd Htl]; subst.
    destruct (Hhd t addr Hv) as (bs1 & Hput1 & Hnew1).
    destruct (IH Htl) as (bs2 & Hput2 & Hnew2).
    exists (bs1 ++ bs2). split.
    + cbn [put_each]. rewrite Hput1. cbn. rewrite Hput2. reflexivity.
    + intros rest. cbn [new_each]. rewrite <- app_assoc, Hnew1. cbn.
      rewrite Hnew2. reflexivity.
Qed.

Lemma put_each_new_elems (items : list (value C)) (e : type C) :
  Forall reads_back items → Forall (λ el, wire_value el e) items →
  ∃ bs, put_each (put true) items = Return bs ∧
        ∀ rest, new_elems (new e) (length items) (bs ++ rest) = Return (items, rest).
Proof.
  intros HP Hty. revert HP.
  induction Hty as [|v items Hv Hrest IH]; intros HP.
  - exists []. split; [done|]. intros rest. reflexivity.
  - inversion HP as [|? ? Hhd Htl]; subst.
    destruct (Hhd e true Hv) as (bs1 & Hput1 & Hnew1).
    destruct (IH Htl) as (bs2 & Hput2 & Hnew2).
    exists (bs1 ++ bs2). split.
    + cbn [put_each]. rewrite Hput1. cbn. rewrite Hput2. reflexivity.
    + intros rest. cbn [new_elems length]. rewrite <- app_assoc, Hnew1. cbn.
      rewrite Hnew2. reflexivity.
Qed.

Lemma put_new (v : value C) : reads_back v.
Proof.
  induction v as [k n|s|b|e items IH|ser fields IH|p|p|] using value_nested_ind;
    intros t addr Hty; inversion Hty; subst.
  - eexists. split; [reflexivity|]. intros rest. cbn [new].
    rewrite wrap_small by done.
    rewrite read_uint_PutUint by (rewrite <- bits_size; done). reflexivity.
  - eexists. split; [reflexivity|]. intros rest. cbn [new].
    rewrite read_prefixed by done. rewrite read_bytes_app. reflexivity.
  - eexists. split; [reflexivity|]. intros rest. cbn [new].
    rewrite read_prefixed by done. rewrite read_bytes_app. reflexivity.
  - destruct (put_each_new_elems items e IH) as (bs & Hput & Hnew); [done|].
    eexists. split.
    + cbn [put]. rewrite Hput. reflexivity.
    + intros rest.
      assert (Hlen : read_uint 4
                (((PutUint 4 (uint32 (Z.of_nat (length items)))) ++ bs) ++ rest)
              = (Z.of_nat (length items), bs ++ rest)).
      { rewrite <- app_assoc. unfold uint32. rewrite wrap_small by lia.
        apply read_uint_PutUint. change (8 * Z.of_nat 4) with 32. lia. }
      assert (Hgo : (let '(len, r1) := read_uint 4
                       (((PutUint 4 (uint32 (Z.of_nat (length items)))) ++ bs) ++ rest) in
                     '(items0, r2) ← new_elems (new e) (Z.to_nat len) r1;
                     mret (VSlice e items0, r2))
                    = Return (VSlice e items, rest)).
      { rewrite Hlen, Nat2Z.id, Hnew. reflexivity. }
      destruct e as [k| | | | | |]; try exact Hgo.
      destruct k; try exact Hgo. congruence.
  - destruct (put_each_new_each fields ts addr IH) as (bs & Hput & Hnew); [done|].
    exists bs. split.
    + cbn [put]. destruct addr; exact Hput.
    + intros rest. cbn [new]. rewrite Hnew. reflexivity.
Qed.

(** Induction on types through the lists of field types. *)
Lemma type_nested_ind (P : type C → Prop) :
  (∀ k, P (TUint k)) →
  P TString →
  (∀ e, P e → P (TSlice e)) →
  (∀ ser fields, Forall P fields → P (TStruct ser fields)) →
  P TPtr →
  P TInterface →
  P TOther →
  ∀ t, P t.
Proof.
  intros Huint Hstring Hslice Hstruct Hptr Hinterface Hother.
  fix rec 1. intros t.
  destruct t as [k| |e|ser fields| | |].
  - apply Huint.
  - apply Hstring.
  - apply Hslice, rec.
  - apply Hstruct. induction fields as [|x l IHl]; constructor; [apply rec|apply IHl].
  - apply Hptr.
  - apply Hinterface.
  - apply Hother.
Qed.

(** [new t] is [get] on the zero value of [t]: what the walk does on an
    element that [reflect.MakeSlice] has just made. *)
Lemma get_zero (t : type C) : ∀ r, get (zero t) r = new t r.
Proof.
  induction t as [k| |e IH|ser fields IH| | |] using type_nested_ind; intros r;
    try reflexivity.
  - destruct e as [k| | | | | |]; try reflexivity. by destruct k.
  - cbn [zero]. destruct ser as [c|]; [reflexivity|]. cbn [get new].
    assert (Heach : ∀ r, get_each get (map zero fields) r = new_each new fields r).
    { clear r. induction IH as [|t ts Ht Hts IHts]; intros r; [done|].
      cbn [map get_each new_each]. rewrite Ht.
      destruct (new t r) as [[el r1]|msg]; [|done]. cbn. by rewrite IHts. }
    by rewrite Heach.
Qed.




Lemma wire_value_typed (v : value C) : ∀ t, wire_value v t → typed_value v t.
Proof.
  induction v as [k n|s|b|e items IH|ser fields IH|p|p|] using value_nested_ind;
    intros t Hty; inversion Hty as [| | |? ? Hne Hlen Hall|? ts' Hall]; subst;
    try (by constructor).
  - constructor; [done|].
    rewrite Forall_forall in *. intros x Hx. apply IH; [done|]. by apply Hall.
  - constructor. clear Hty. revert IH.
    induction Hall as [|x t' l l' Hx Hl IHl]; intros IH; [done|].
    inversion IH; subst. constructor; [by eauto|by apply IHl].
Qed.


(** *** The explicit walk computes [Serialize] *)

Lemma Serialize_callback_app (el : value C) (s : list byte) :
  Serialize_callback el s = (w ← Serialize_callback el []; mret (s ++ w)).
Proof.
  destruct el as [k n|str|b|e items|[c|] fields|[c|]|[c|]|]; try reflexivity;
    cbn; destruct (custom_Serialize c); reflexivity.
Qed.

(** Where [step] calls the callback and goes on, the callback writes what
    [put] writes. *)
Lemma put_as_callback (el : value C) (CanAddr : bool) :
  match el with
  | VStruct _ _ => addressable_Serializable el CanAddr = true
  | VSlice _ _ => False
  | _ => True
  end →
  put CanAddr el = Serialize_callback el [].
Proof.
  destruct el as [k n|str|b|e items|[c|] fields|[c|]|[c|]|]; try done;
    cbn; intros Hel; try discriminate; try subst CanAddr;
    destruct (custom_Serialize c); reflexivity.
Qed.

Lemma drop_next {A : Type} (l : list A) (i : nat) (x : A) (rest : list A) :
  drop i l = x :: rest → drop (i + 1) l = rest.
Proof. intros Hdrop. by rewrite <- drop_drop, Hdrop. Qed.

Lemma for_elements_put (v : pair) (rest : list (value C)) :
  addressable_Serializable (a v) (a_CanAddr v) = false →
  ∀ (i : nat) (s : list byte) (wayBack : list pair),
    drop i (elements (a v)) = rest →
    match for_elements Serialize_callback v i rest s wayBack with
    | Panic msg =>
        put_each (put (element_CanAddr (a v) (a_CanAddr v))) rest = Panic msg
    | Return (s', wayBack') =>
        ∃ w, s' = s ++ w
             ∧ (x ← put_wayBack wayBack'; mret (w ++ x))
               = (x ← put_each (put (element_CanAddr (a v) (a_CanAddr v))) rest;
                  y ← put_wayBack wayBack; mret (x ++ y))
             ∧ (sum_of pair_weight wayBack'
                < 1 + sum_of weight rest + sum_of pair_weight wayBack)%nat
    end.
Proof.
  intros Hv. set (ea := element_CanAddr (a v) (a_CanAddr v)).
  induction rest as [|el rest IH]; intros i s wayBack Hdrop.
  - cbn. exists []. rewrite app_nil_r. split; [done|]. split; [|lia].
    by destruct (put_wayBack wayBack).
  - pose proof (drop_next _ _ _ _ Hdrop) as Hnext.
    assert (Hcontainer : put_pair {| a := a v; a_CanAddr := a_CanAddr v; b := i + 1 |}
                         = put_each (put ea) rest).
    { unfold put_pair. cbn [a a_CanAddr b]. rewrite Hv, Hnext.
      clear -Hdrop. revert Hdrop.
      destruct (a v); intros Hdrop; try reflexivity;
        cbn in Hdrop; by rewrite drop_nil in Hdrop. }
    assert (Hleaf : put ea el = Serialize_callback el [] →
      step Serialize_callback i v el s wayBack
        = (s' ← Serialize_callback el s; mret (s', wayBack, true)) →
      match for_elements Serialize_callback v i (el :: rest) s wayBack with
      | Panic msg => put_each (put ea) (el :: rest) = Panic msg
      | Return (s', wayBack') =>
          ∃ w, s' = s ++ w
               ∧ (x ← put_wayBack wayBack'; mret (w ++ x))
                 = (x ← put_each (put ea) (el :: rest);
                    y ← put_wayBack wayBack; mret (x ++ y))
               ∧ (sum_of pair_weight wayBack'
                  < 1 + sum_of weight (el :: rest)
                    + sum_of pair_weight wayBack)%nat
      end).
    { intros Hput Hstep. cbn [for_elements put_each]. rewrite Hstep, Hput.
      rewrite Serialize_callback_app.
      destruct (Serialize_callback el []) as [w|msg]; [|done]. cbn.
      specialize (IH (i + 1)%nat (s ++ w) wayBack Hnext).
      destruct (for_elements Serialize_callback v (i + 1) rest (s ++ w) wayBack)
        as [[s' wayBack']|msg].
      - destruct IH as (w' & -> & Heq & Hlt).
        exists (w ++ w'). rewrite app_assoc. split; [done|]. split; [|lia].
        destruct (put_each (put ea) rest) as [x|msg].
        + cbn in *. destruct (put_wayBack wayBack) as [y|msg];
            destruct (put_wayBack wayBack') as [y'|msg']; cbn in *;
            try discriminate; try done.
          injection Heq as Heq. by rewrite <- !app_assoc, Heq.
        + cbn in *. by destruct (put_wayBack wayBack').
      - by rewrite IH. }
    destruct el as [k n|str|bs|e items|ser fields|pt|it|].
    + apply Hleaf; [by apply put_as_callback|reflexivity].
    + apply Hleaf; [by apply put_as_callback|reflexivity].
    + apply Hleaf; [by apply put_as_callback|reflexivity].
    + cbn [for_elements step put_each put Serialize_callback].
      cbn [mbind mret outcome_bind outcome_ret].
      exists (PutUint 4 (uint32 (Z.of_nat (length items)))). split; [done|].
      split.
      * cbn [put_wayBack]. rewrite Hcontainer. unfold put_pair at 1.
        cbn [a a_CanAddr b addressable_Serializable elements element_CanAddr drop].
        rewrite drop_0.
        destruct (put_each (put true) items) as [x|msg]; [|done].
        cbn. destruct (put_each (put ea) rest) as [y|msg]; [|done].
        cbn. destruct (put_wayBack wayBack) as [z|msg]; [|done].
        cbn. by rewrite <- !app_assoc.
      * cbn [sum_of]. unfold pair_weight at 1 2.
        cbn [a b elements weight]. rewrite Hnext, drop_0. lia.
    + destruct (addressable_Serializable (VStruct ser fields) ea) eqn:Hser.
      * apply Hleaf; [by apply put_as_callback|].
        unfold step. fold ea. by rewrite Hser.
      * cbn [for_elements]. unfold step. fold ea. rewrite Hser.
        cbn [mbind mret outcome_bind outcome_ret].
        exists []. rewrite app_nil_r. split; [done|]. split.
        -- cbn [put_wayBack put_each]. rewrite Hcontainer. unfold put_pair at 1.
           cbn [a a_CanAddr b elements element_CanAddr]. rewrite Hser, drop_0.
           assert (Hput : put ea (VStruct ser fields) = put_each (put ea) fields).
           { cbn [put]. destruct ea; [|done].
             destruct ser; [discriminate|done]. }
           rewrite Hput.
           destruct (put_each (put ea) fields) as [x|msg]; [|done].
           cbn. destruct (put_each (put ea) rest) as [y|msg]; [|done].
           cbn. destruct (put_wayBack wayBack) as [z|msg]; [|done].
           cbn. by rewrite <- !app_assoc.
        -- cbn [sum_of]. unfold pair_weight at 1 2.
           cbn [a b elements weight]. rewrite Hnext, drop_0. lia.
    + apply Hleaf; [by apply put_as_callback|reflexivity].
    + apply Hleaf; [by apply put_as_callback|reflexivity].
    + apply Hleaf; [by apply put_as_callback|reflexivity].
Qed.

Lemma strucWalker_loop_put (fuel : nat) :
  ∀ (wayBack : list pair) (s : list byte),
    (sum_of pair_weight wayBack <= fuel)%nat →
    strucWalker_loop Serialize_callback fuel wayBack s
    = Some (w ← put_wayBack wayBack; mret (s ++ w)).
Proof.
  induction fuel as [|fuel IH]; intros wayBack s Hfuel.
  - destruct wayBack as [|p rest]; [by rewrite <- (app_nil_r s) at 1|].
    cbn [sum_of] in Hfuel.
    assert (1 <= pair_weight p)%nat by (unfold pair_weight; lia). lia.
  - destruct wayBack as [|p rest]; [cbn; by rewrite app_nil_r|].
    cbn [sum_of] in Hfuel.
    assert (Hpos : pair_weight p
                   = (1 + sum_of weight (drop (b p) (elements (a p))))%nat)
      by reflexivity.
    assert (Hcall : put_pair p = Serialize_callback (a p) [] →
      (match Serialize_callback (a p) s with
       | Return s' => strucWalker_loop Serialize_callback fuel rest s'
       | Panic msg => Some (Panic msg)
       end) = Some (w ← put_wayBack (p :: rest); mret (s ++ w))).
    { intros Hput. cbn [put_wayBack]. rewrite Hput, Serialize_callback_app.
      destruct (Serialize_callback (a p) []) as [w|msg]; [|done]. cbn.
      rewrite IH by lia.
      destruct (put_wayBack rest) as [w'|msg]; [|done]. cbn.
      by rewrite app_assoc. }
    assert (Hwalk : addressable_Serializable (a p) (a_CanAddr p) = false →
      put_pair p = put_each (put (element_CanAddr (a p) (a_CanAddr p)))
                     (drop (b p) (elements (a p))) →
      (match for_elements Serialize_callback p (b p)
               (drop (b p) (elements (a p))) s rest with
       | Return (s', wayBack') => strucWalker_loop Serialize_callback fuel wayBack' s'
       | Panic msg => Some (Panic msg)
       end) = Some (w ← put_wayBack (p :: rest); mret (s ++ w))).
    { intros Hser Hput. cbn [put_wayBack]. rewrite Hput.
      pose proof (for_elements_put p (drop (b p) (elements (a p))) Hser
                    (b p) s rest eq_refl) as Hfor.
      destruct (for_elements Serialize_callback p (b p)
                  (drop (b p) (elements (a p))) s rest) as [[s' wayBack']|msg].
      - destruct Hfor as (w & -> & Heq & Hlt).
        rewrite IH by lia.
        rewrite <- Heq.
        destruct (put_wayBack wayBack') as [x|msg]; [|done]. cbn.
        by rewrite app_assoc.
      - by rewrite Hfor. }
    cbn [strucWalker_loop].
    destruct (a p) as [k n|str|bs|e items|ser fields|pt|it|] eqn:Hp;
      try (apply Hcall; unfold put_pair; by rewrite Hp).
    + apply Hwalk; [done|]. unfold put_pair. by rewrite Hp.
    + apply Hwalk; [done|]. unfold put_pair. by rewrite Hp.
    + destruct (addressable_Serializable (VStruct ser fields) (a_CanAddr p)) eqn:Hser.
      * apply Hcall. unfold put_pair. by rewrite Hp, Hser.
      * apply Hwalk; [done|]. unfold put_pair. by rewrite Hp, Hser.
Qed.

(** X3: the loop of [strucWalker] over its [wayBack] list, run with
    [Serialize]'s callback and enough fuel, returns what the recursive
    [Serialize] returns and panics where it panics. *)
Lemma Serialize_walk_Serialize (ptr : bool) (struc : value C) (fuel : nat) :
  (1 + sum_of weight (elements struc) <= fuel)%nat →
  Serialize_walk fuel ptr struc = Some (Serialize ptr struc).
Proof.
  intros Hfuel. unfold Serialize_walk, strucWalker.
  rewrite strucWalker_loop_put.
  2:{ cbn [sum_of]. unfold pair_weight. cbn [a b]. rewrite drop_0. lia. }
  f_equal. cbn [put_wayBack app].
  assert (Hpair : put_pair {| a := struc; a_CanAddr := ptr; b := 0 |}
                  = Serialize ptr struc).
  { unfold put_pair, Serialize. cbn [a a_CanAddr b]. rewrite drop_0.
    destruct struc as [k n|str|bs|e items|[c|] fields|[c|]|[c|]|]; try reflexivity;
      cbn; try (destruct ptr; cbn); try reflexivity;
      destruct (custom_Serialize c); reflexivity. }
  rewrite Hpair. destruct (Serialize ptr struc) as [w|msg]; [|done].
  cbn. by rewrite app_nil_r.
Qed.

End codec_facts.

(** ** [SerializeBytes] and [DeserializeBytes] *)

Section bytes_codec.

Import utils.

Lemma byte_of_Z_land_255 (z : Z) : byte_of_Z (Z.land z 255) = byte_of_Z z.
Proof.
  unfold byte_of_Z. change 255 with (Z.ones 8).
  rewrite Z.land_ones by lia. change (2 ^ 8) with 256.
  by rewrite Z.mod_mod by lia.
Qed.

(** The prefix written by [SerializeBytes] is the little-endian 16-bit
    length. *)
Lemma SerializeBytes_prefix (data : list byte) :
  SerializeBytes data = PutUint 2 (Z.of_nat (length data)) ++ data.
Proof. unfold SerializeBytes. cbn [PutUint app]. by rewrite byte_of_Z_land_255. Qed.

(** X2: below [2^15] bytes [DeserializeBytes] returns what
    [SerializeBytes] was given, with a nil error, and leaves the rest of
    the stream. *)
Lemma DeserializeBytes_SerializeBytes (b rest : list byte) :
  Z.of_nat (length b) < 2 ^ 15 →
  DeserializeBytes (SerializeBytes b ++ rest) = Return (b, None, rest).
Proof.
  intros Hlen. unfold DeserializeBytes.
  rewrite SerializeBytes_prefix, <- app_assoc, binary_Read_uint_app.
  change (8 * Z.of_nat 2) with 16.
  rewrite (Z.mod_small (Z.of_nat (length b))) by lia.
  unfold int16, uint16. rewrite wrap_small by lia.
  destruct (2 ^ 15 <=? Z.of_nat (length b)) eqn:E; [apply Z.leb_le in E; lia|].
  destruct (Z.of_nat (length b) <? 0) eqn:E'; [apply Z.ltb_lt in E'; lia|].
  unfold binary_Read_bytes. by rewrite Nat2Z.id, ReadFull_app.
Qed.

(** From [2^15] bytes on, the prefix read back as [int16] is negative and
    [make] panics. *)
Lemma DeserializeBytes_SerializeBytes_negative (b rest : list byte) :
  2 ^ 15 <= Z.of_nat (length b) < 2 ^ 16 →
  DeserializeBytes (SerializeBytes b ++ rest) = Panic "makeslice: len out of range".
Proof.
  intros Hlen. unfold DeserializeBytes.
  rewrite SerializeBytes_prefix, <- app_assoc, binary_Read_uint_app.
  change (8 * Z.of_nat 2) with 16.
  rewrite (Z.mod_small (Z.of_nat (length b))) by lia.
  unfold int16, uint16. rewrite wrap_small by lia.
  destruct (2 ^ 15 <=? Z.of_nat (length b)) eqn:E; [|apply Z.leb_gt in E; lia].
  destruct (Z.of_nat (length b) - 2 ^ 16 <? 0) eqn:E'; [done|].
  apply Z.ltb_ge in E'. lia.
Qed.

(** A truncated stream makes [DeserializeBytes] return an error: the
    prefix is missing ... *)
Lemma DeserializeBytes_short_prefix (r : list byte) :
  (length r < 2)%nat → ∃ e, DeserializeBytes r = Return ([], Some e, []).
Proof.
  intros Hlen. unfold DeserializeBytes, binary_Read_uint.
  destruct (ReadFull_short 2 r Hlen) as [e He]. rewrite He. eauto.
Qed.

(** ... or the prefix is larger than what is left. *)
Lemma DeserializeBytes_short_data (len : Z) (r : list byte) :
  0 <= len < 2 ^ 15 → (length r < Z.to_nat len)%nat →
  ∃ e, DeserializeBytes (PutUint 2 len ++ r) = Return ([], Some e, []).
Proof.
  intros Hlen Hr. unfold DeserializeBytes.
  rewrite binary_Read_uint_app. change (8 * Z.of_nat 2) with 16.
  rewrite (Z.mod_small len) by lia.
  unfold int16, uint16. rewrite wrap_small by lia.
  destruct (2 ^ 15 <=? len) eqn:E; [apply Z.leb_le in E; lia|].
  destruct (len <? 0) eqn:E'; [apply Z.ltb_lt in E'; lia|].
  unfold binary_Read_bytes.
  destruct (ReadFull_short (Z.to_nat len) r Hr) as [e He]. rewrite He. eauto.
Qed.

End bytes_codec.

Section codec_claims.

Import utils.

(** C1 (second half, at a failing input): a byte sequence of 32768 zero
    bytes is shorter than [2^16], yet [DeserializeBytes] applied to
    [SerializeBytes] of it panics instead of returning it, because the
    prefix [0x8000] is read back as the [int16] [-32768].  (Below [2^15]
    bytes the pair round-trips, and the reflective pair round-trips on all
    wire values; both are proved above.) *)
Theorem DeserializeBytes_SerializeBytes_32768 :
  let b := replicate (Z.to_nat 32768) Byte.x00 in
  Z.of_nat (length b) < 2 ^ 16 ∧
  DeserializeBytes (SerializeBytes b) = Panic "makeslice: len out of range".
Proof.
  intros b.
  assert (Hlen : Z.of_nat (length b) = 32768).
  { unfold b. rewrite length_replicate. lia. }
  split; [lia|].
  rewrite <- (app_nil_r (SerializeBytes b)).
  apply DeserializeBytes_SerializeBytes_negative. lia.
Qed.

(** [Deserialize] has a single [return], and it returns nil. *)
Lemma Deserialize_returns_nil {C : Type} `{!Serializable C}
    (struc v : value C) (r r' : Buffer) (err : option error) :
  Deserialize struc r = Return (v, r', err) → err = None.
Proof.
  unfold Deserialize. intros H.
  destruct struc as [k n|s|b|e items|ser fields|p|p|];
    match type of H with
    | (?m ≫= _) = _ =>
        destruct m as [[? ?]|?]; cbn in H; unfold mret, outcome_ret in H; congruence
    end.
Qed.

(** A stream that ends inside an integer field, or inside the bytes
    announced by a length prefix, is not reported: the field is left (or
    made) zero, the stream is drained, and nil is returned. *)
Lemma get_uint_truncated {C : Type} `{!Serializable C}
    (k : uintKind) (n : Z) (r : Buffer) :
  (length r < size k)%nat → get (VUint k n : value C) r = Return (VUint k 0, []).
Proof.
  intros Hlen. cbn [get]. unfold read_uint, binary_Read_uint.
  destruct (ReadFull_short (size k) r Hlen) as [e He]. by rewrite He.
Qed.

Lemma get_bytes_truncated {C : Type} `{!Serializable C}
    (old : list byte) (len : Z) (r : Buffer) :
  0 <= len < 2 ^ 16 → (length r < Z.to_nat len)%nat →
  get (VBytes old : value C) (PutUint 2 len ++ r)
    = Return (VBytes (replicate (Z.to_nat len) Byte.x00), []).
Proof.
  intros Hlen Hr. cbn [get].
  rewrite read_uint_PutUint by (change (8 * Z.of_nat 2) with 16; lia).
  unfold read_bytes, binary_Read_bytes.
  destruct (ReadFull_short (Z.to_nat len) r Hr) as [e He]. by rewrite He.
Qed.

(** C6 (at failing inputs): on a stream that ends in the middle of a
    [uint32] field, and on a stream whose length prefix 5 exceeds the one
    byte that is left, [Deserialize] returns nil (no error) with the field
    zero-filled, where the claim asks for a Truncated or LengthOverflow
    error. *)
Theorem Deserialize_truncated_returns_nil :
  Deserialize (VStruct None [VUint Uint32 7] : value BytesWithoutLengthPrefix)
      [Byte.x01; Byte.x02]
    = Return (VStruct None [VUint Uint32 0], [], None)
  ∧ Deserialize (VStruct None [VBytes []] : value BytesWithoutLengthPrefix)
      [Byte.x05; Byte.x00; Byte.x01]
    = Return (VStruct None [VBytes (replicate 5 Byte.x00)], [], None).
Proof. split; reflexivity. Qed.

End codec_claims.

(** ** The to-be-signed buffer of a ChangeKey *)

Section little_endian_facts.

Lemma PutUint_little_endian (n : nat) (v : Z) : PutUint n v = little_endian n v.
Proof.
  unfold little_endian. revert v. induction n as [|n IH]; intros v; [done|].
  cbn [PutUint seq map]. rewrite Z.pow_0_r, Z.div_1_r. f_equal.
  rewrite IH, <- seq_shift, map_map.
  apply map_ext. intros i.
  rewrite Z.shiftr_div_pow2 by lia. change (2 ^ 8) with 256.
  rewrite Nat2Z.inj_succ, Z.pow_succ_r by lia.
  by rewrite Z.div_div by lia.
Qed.

Lemma byte_of_Z_mod (v m : Z) : 0 < m → byte_of_Z (v mod (256 * m)) = byte_of_Z v.
Proof.
  intros Hm. unfold byte_of_Z.
  replace ((v mod (256 * m)) mod 256) with (v mod 256); [done|].
  rewrite Z.rem_mul_r by lia.
  rewrite Z.mul_comm, Z.mod_add by lia. by rewrite Z.mod_mod by lia.
Qed.

(** Only the low [8 n] bits of [v] reach the [n] bytes written. *)
Lemma PutUint_wrap (n : nat) (v : Z) :
  PutUint n (wrap (8 * Z.of_nat n) v) = PutUint n v.
Proof.
  unfold wrap. revert v. induction n as [|n IH]; intros v; [done|].
  cbn [PutUint].
  replace (2 ^ (8 * Z.of_nat (S n))) with (256 * 2 ^ (8 * Z.of_nat n)).
  2:{ replace (8 * Z.of_nat (S n)) with (8 + 8 * Z.of_nat n) by lia.
      by rewrite Z.pow_add_r by lia. }
  assert (Hpos : 0 < 2 ^ (8 * Z.of_nat n)) by (apply Z.pow_pos_nonneg; lia).
  rewrite byte_of_Z_mod by done. f_equal.
  rewrite <- (IH (Z.shiftr v 8)). f_equal.
  rewrite !Z.shiftr_div_pow2 by lia. change (2 ^ 8) with 256.
  rewrite Z.rem_mul_r by lia.
  rewrite (Z.mul_comm 256), Z.div_add by lia.
  rewrite (Z.div_small (v mod 256)) by (apply Z.mod_pos_bound; lia).
  reflexivity.
Qed.

End little_endian_facts.

Section changekey_claims.

Import utils.

Context {Public SignatureSerialized : Type}.
Context (SerializedPlain : Public → value BytesWithoutLengthPrefix).

(** C2: the buffer [getBufferToSign] returns is the concatenation, in this
    order, of source (32 bits), operation id (32 bits), fee (64 bits), the
    payload bytes with no length prefix, the codec's encoding of the plain
    serialization of the source public key, and the new public key behind
    its 16-bit length prefix; it panics exactly when encoding the plain
    public key does. *)
Theorem getBufferToSign_layout (this : tx.ChangeKey Public SignatureSerialized) :
  tx.getBufferToSign SerializedPlain this
  = (plain ← put false (SerializedPlain (tx.PublicKey this));
     mret (tx.to_be_signed_layout this plain)).
Proof.
  unfold tx.getBufferToSign, tx.to_be_signed_layout, tx.changeKeyToSign_value.
  cbn [Serialize put put_each tx.toSignSource tx.toSignOperation tx.toSignFee
       tx.toSignPayload tx.toSignPublic tx.toSignNewPublic].
  cbn [mbind mret outcome_bind outcome_ret custom_Serialize
       Serializable_Serialize BytesWithoutLengthPrefix_Serializable
       BytesWithoutLengthPrefix_Serialize Bytes size].
  destruct (put false (SerializedPlain (tx.PublicKey this))) as [plain|msg];
    [|reflexivity].
  cbn [mbind mret outcome_bind outcome_ret].
  rewrite app_nil_r.
  change (bits Uint32) with (8 * Z.of_nat 4).
  change (bits Uint64) with (8 * Z.of_nat 8).
  unfold uint16. change 16 with (8 * Z.of_nat 2).
  rewrite !PutUint_wrap, !PutUint_little_endian.
  by rewrite <- ?app_assoc.
Qed.

End changekey_claims.

(** ** Block assembly *)

Section safebox_claims.

Import utils.

Context {C : Type} `{!Serializable C}.
Context {Tx Public TargetBase : Type}.
Context (Tx_GetFee : Tx → Z) (Tx_SerializeUnderlying : Tx → list byte).
Context (Sum256 : list byte → list byte).
Context (NewPublic : list byte → Public + error).
Context (NewTarget : Z → TargetBase) (getReward : Z → Z).
Context (AccountHashBuffer : type C).
Context (GetHashBuffer : accounter.Account Public → value C).

Lemma GetOperationsHash_loop_fold (hash : list byte) (operations : list Tx) :
  safebox.GetOperationsHash_loop Tx_SerializeUnderlying Sum256 hash operations
  = fold_left (λ acc op, Sum256 (acc ++ Sum256 (Tx_SerializeUnderlying op)))
      operations hash.
Proof.
  revert hash. induction operations as [|it rest IH]; intros hash; [done|].
  cbn [safebox.GetOperationsHash_loop fold_left]. by rewrite IH.
Qed.

(** C3: [GetOperationsHash] is the left fold that starts from the SHA-256
    of the empty string and, for each operation in list order, replaces the
    accumulator by the SHA-256 of the accumulator followed by the SHA-256
    digest of the operation's underlying encoding. *)
Theorem GetOperationsHash_is_fold (operations : list Tx) :
  safebox.GetOperationsHash Tx_SerializeUnderlying Sum256 operations
  = safebox.operations_hash_fold Tx_SerializeUnderlying Sum256 operations.
Proof. apply GetOperationsHash_loop_fold. Qed.

(** X25: one more operation extends the chain by one step: the operations
    hash of a list followed by [op] is the SHA-256 of the operations hash
    of the list followed by the SHA-256 of the underlying encoding of
    [op]. *)
Lemma GetOperationsHash_snoc (operations : list Tx) (op : Tx) :
  safebox.GetOperationsHash Tx_SerializeUnderlying Sum256 (operations ++ [op])
  = Sum256 (safebox.GetOperationsHash Tx_SerializeUnderlying Sum256 operations
            ++ Sum256 (Tx_SerializeUnderlying op)).
Proof.
  unfold safebox.GetOperationsHash.
  rewrite !GetOperationsHash_loop_fold, fold_left_app. reflexivity.
Qed.

Lemma NewBlock_loop_sum (operations rest : list Tx) (fee : Z) :
  safebox.NewBlock_loop Tx_GetFee operations fee rest
  = (operations ++ rest, if rest is [] then fee
                         else uint64 (fee + safebox.fee_sum Tx_GetFee rest)).
Proof.
  revert operations fee. induction rest as [|it rest IH]; intros operations fee.
  - cbn. by rewrite app_nil_r.
  - cbn [safebox.NewBlock_loop]. rewrite IH, <- app_assoc. cbn [app]. f_equal.
    unfold safebox.fee_sum. cbn [map foldr].
    destruct rest as [|it' rest].
    + cbn. by rewrite Z.add_0_r.
    + unfold uint64, wrap. rewrite Zplus_mod_idemp_l. f_equal. lia.
Qed.

(** C9, amended: the fee of a block built by [NewBlock] is the sum of the
    fees of its operations reduced modulo [2^64] (the loop adds in
    [uint64]); so it is the sum itself whenever that lies below [2^64], and
    0 for an empty list. *)
Theorem NewBlock_fee (meta : safebox.BlockMetadata Tx)
    (block : safebox.Block Tx Public TargetBase) :
  safebox.NewBlock Tx_GetFee Tx_SerializeUnderlying Sum256 NewPublic NewTarget
    getReward AccountHashBuffer GetHashBuffer meta = Return (Some block, None) →
  let sum := safebox.fee_sum Tx_GetFee (safebox.metaOperations meta) in
  safebox.GetFee block = uint64 sum
  ∧ (0 <= sum < 2 ^ 64 → safebox.GetFee block = sum)
  ∧ (safebox.metaOperations meta = [] → safebox.GetFee block = 0).
Proof.
  intros Hnew sum.
  assert (Hfee : safebox.GetFee block = uint64 sum).
  { unfold safebox.NewBlock in Hnew.
    rewrite NewBlock_loop_sum in Hnew.
    destruct (NewPublic (safebox.metaMiner meta)) as [miner|err]; [|done].
    match type of Hnew with
    | (?m ≫= _) = _ => destruct m as [hash|msg]; [|done]
    end.
    cbn in Hnew. injection Hnew as <-. cbn.
    unfold sum. destruct (safebox.metaOperations meta); [done|].
    by rewrite Z.add_0_l. }
  split; [done|]. split.
  - intros Hsum. rewrite Hfee. by apply wrap_small.
  - intros Hnil. rewrite Hfee. unfold sum. by rewrite Hnil.
Qed.

End safebox_claims.

(** C9, as stated, fails when the sum leaves 64 bits: two operations with
    fee [2^63] each make a block whose fee is 0, while the sum of their
    fees is [2^64]. *)
Lemma NewBlock_fee_wraps :
  ∃ block,
    toy.NewBlock (toy.metadata 1 [toy.operation 0 (2 ^ 63); toy.operation 1 (2 ^ 63)])
      = Return (Some block, None)
    ∧ safebox.GetFee block = 0
    ∧ safebox.fee_sum tx.GetFee [toy.operation 0 (2 ^ 63); toy.operation 1 (2 ^ 63)]
      = 2 ^ 64.
Proof. eexists. split; [reflexivity|]. split; reflexivity. Qed.

(** Two operations with fees 3 and 4 make a block with fee 7. *)
Lemma NewBlock_fee_witness :
  ∃ block,
    toy.NewBlock (toy.metadata 1 [toy.operation 0 3; toy.operation 1 4])
      = Return (Some block, None)
    ∧ safebox.GetFee block = 7.
Proof.
  eexists. split; [reflexivity|].
  refine (proj1 (proj2 (NewBlock_fee tx.GetFee toy.Tx_SerializeUnderlying
    toy.Sum256 toy.NewPublic toy.NewTarget toy.getReward toy.AccountHashBuffer
    toy.GetHashBuffer (toy.metadata 1 [toy.operation 0 3; toy.operation 1 4])
    _ eq_refl)) _).
  vm_compute. split; discriminate || reflexivity.
Defined.

(** ** Validation and application of a ChangeKey *)

Section validate_claims.

Context {Public SignatureSerialized Micro : Type}.
Context (NewPublic : list byte → Public + error).
Context (KeyChange : accounter.Account Public → Public → Z → list Micro).
Context (BalanceSub : accounter.Account Public → Z → Z → list Micro).

(** C4, amended: [Validate] returns an error exactly when one of three
    checks fails (the source account exists, its balance is at least the
    fee, the new public key parses); it does not look at the signature.
    When the three pass it returns the context made of the account and the
    parsed key, and [Apply] on that context returns, with a nil error, the
    key change followed by the fee deduction for the source account. *)
Theorem Validate_three_checks (this : tx.ChangeKey Public SignatureSerialized)
    (getAccount : Z → option (accounter.Account Public)) :
  (is_Some (tx.Validate NewPublic this getAccount).2 ↔
   ¬ ∃ source public,
       getAccount (tx.Source this) = Some source
       ∧ tx.Fee this <= accounter.Balance source
       ∧ NewPublic (tx.NewPublickey this) = inl public)
  ∧ ∀ source public,
      getAccount (tx.Source this) = Some source →
      tx.Fee this <= accounter.Balance source →
      NewPublic (tx.NewPublickey this) = inl public →
      let context :=
        tx.changeKeyContext_ptr {| tx.ctxSource := source; tx.ctxNewPublic := public |} in
      tx.Validate NewPublic this getAccount = (Some context, None)
      ∧ ∀ index,
          tx.Apply KeyChange BalanceSub this index context
          = Return ({[ accounter.Number source :=
                         KeyChange source public index
                         ++ BalanceSub source (tx.Fee this) index ]}, None).
Proof.
  split.
  - unfold tx.Validate.
    destruct (getAccount (tx.Source this)) as [source|] eqn:Hsource.
    2:{ cbn. split; [|by eauto]. intros _ (source & public & H & _). done. }
    destruct (accounter.Balance source <? tx.Fee this) eqn:Hbalance.
    { apply Z.ltb_lt in Hbalance. cbn. split; [|by eauto].
      intros _ (source' & public & H & Hle & _).
      injection H as <-. lia. }
    apply Z.ltb_ge in Hbalance.
    destruct (NewPublic (tx.NewPublickey this)) as [public|err] eqn:Hkey; cbn.
    + split.
      * intros [e He]. done.
      * intros Hnot. exfalso. apply Hnot. by exists source, public.
    + split; [|by eauto]. intros _ (source' & public & _ & _ & H). done.
  - intros source public Hsource Hbalance Hkey context. split.
    + unfold tx.Validate. rewrite Hsource, Hkey.
      destruct (accounter.Balance source <? tx.Fee this) eqn:E; [|done].
      apply Z.ltb_lt in E. lia.
    + intros index. unfold tx.Apply, context. cbn [tx.ctxSource tx.ctxNewPublic].
      rewrite lookup_insert_eq. cbn [default].
      by rewrite insert_insert_eq, insert_empty.
Qed.

End validate_claims.

(** C4, as stated, fails on the signature: this ChangeKey carries an empty
    signature, which does not verify over its to-be-signed buffer under the
    source public key, and [Validate] returns a context and no error. *)
Lemma Validate_ignores_signature :
  let this := toy.operation 7 1 in
  let getAccount := λ number : Z,
    Some {| accounter.Number := number; accounter.PublicKey := [Byte.x02];
            accounter.Balance := 10; accounter.UpdatedIndex := 0;
            accounter.Operations := 0 |} in
  (∃ buffer,
     tx.getBufferToSign toy.SerializedPlain this = Return buffer
     ∧ toy.Verify (tx.PublicKey this) buffer (tx.Signature this) = false)
  ∧ ∃ context, tx.Validate toy.NewPublic this getAccount = (Some context, None).
Proof.
  split.
  - eexists. split; [reflexivity|]. vm_compute. reflexivity.
  - eexists. reflexivity.
Qed.

(** A ChangeKey of account 7 with fee 1 against a balance of 10 validates
    and applies. *)
Lemma Validate_three_checks_witness :
  let this := toy.operation 7 1 in
  let source :=
    {| accounter.Number := 7; accounter.PublicKey := [Byte.x02];
       accounter.Balance := 10; accounter.UpdatedIndex := 0;
       accounter.Operations := 0 |} in
  let context :=
    tx.changeKeyContext_ptr
      {| tx.ctxSource := source; tx.ctxNewPublic := [Byte.x03] |} in
  tx.Validate toy.NewPublic this (λ _, Some source) = (Some context, None)
  ∧ tx.Apply toy.KeyChange toy.BalanceSub this 5 context
    = Return ({[ 7 := [toy.MicroKeyChange 7 [Byte.x03] 5;
                       toy.MicroBalanceSub 7 1 5] ]}, None).
Proof.
  intros this source context.
  pose proof (proj2 (Validate_three_checks toy.NewPublic toy.KeyChange
    toy.BalanceSub this (λ _, Some source)) source [Byte.x03]
    eq_refl ltac:(cbn; lia) eq_refl) as [Hvalidate Happly].
  split; [exact Hvalidate|exact (Happly 5)].
Defined.

(** ** The peer connection *)

Section connection_claims.

Context {Tx PeerInfo : Type}.
Context (Deserialize_packetHello :
           list byte → outcome (pasl.packetHello PeerInfo * option error)).
Context (Deserialize_packetGetBlocksResponse :
           list byte → outcome (list (safebox.SerializedBlock Tx) * option error)).

Abbreviation PascalConnection := (pasl.PascalConnection Tx PeerInfo).

Lemma copy_zero_padded (hash : list byte) :
  pasl.copy (take 32 (replicate 32 Byte.x00)) hash
  = take (32 `min` length hash) hash
    ++ replicate (32 - (32 `min` length hash)) Byte.x00.
Proof.
  unfold pasl.copy.
  rewrite take_replicate, Nat.min_id, length_replicate, drop_replicate.
  destruct (Nat.le_ge_cases 32 (length hash)) as [Hle|Hge].
  - rewrite Nat.min_l by done.
    replace (32 - length hash)%nat with 0%nat by lia.
    by rewrite Nat.sub_diag.
  - rewrite Nat.min_r by done. by rewrite !take_ge by done.
Qed.

(** C10: after [SetState(height, hash)] the state holds [height] and a
    byte array that did not exist before the call, of exactly 32 bytes: the
    first [min(32, len(hash))] bytes of [hash] followed by zeros; no other
    array changes; [GetState] returns that height and that array. *)
Theorem SetState_GetState (this : PascalConnection) (height : Z) (hash : list byte) :
  let this' := pasl.SetState this height hash in
  ∃ array stored,
    pasl.GetState this' = Return (height, array)
    ∧ (array ∉ dom (pasl.heap this))
    ∧ pasl.heap this' !! array = Some stored
    ∧ stored = take (32 `min` length hash) hash
               ++ replicate (32 - (32 `min` length hash)) Byte.x00
    ∧ length stored = 32%nat
    ∧ ∀ other, other ≠ array → pasl.heap this' !! other = pasl.heap this !! other.
Proof.
  intros this'.
  exists (fresh (dom (pasl.heap this))),
    (pasl.copy (take 32 (replicate 32 Byte.x00)) hash).
  split; [reflexivity|]. split; [apply is_fresh|].
  split; [apply lookup_insert_eq|]. split; [apply copy_zero_padded|].
  split.
  - rewrite copy_zero_padded, length_app, length_take, length_replicate. lia.
  - intros other Hother. cbn. by rewrite lookup_insert_ne.
Qed.

(** [SetState] sends the connection on [onStateUpdate] once and leaves the
    nonce alone. *)
Lemma SetState_sent (this : PascalConnection) (height : Z) (hash : list byte) :
  pasl.sent (pasl.SetState this height hash) = pasl.sent this ++ [pasl.StateUpdate]
  ∧ pasl.nonce (pasl.SetState this height hash) = pasl.nonce this.
Proof. split; reflexivity. Qed.

Lemma onHelloCommon_own_nonce (this : PascalConnection)
    (request : pasl.requestResponse) (payload : list byte)
    (packet : pasl.packetHello PeerInfo) :
  Deserialize_packetHello payload = Return (packet, None) →
  pasl.helloNonce packet = pasl.nonce this →
  ∃ err, pasl.onHelloCommon Deserialize_packetHello this request payload
         = Return (this, request, Some err).
Proof.
  intros Hdecode Heq. unfold pasl.onHelloCommon. rewrite Hdecode. cbn.
  unfold pasl.bytes_Equal. rewrite bool_decide_eq_true_2 by done. eauto.
Qed.

Lemma onHelloCommon_other_nonce (this : PascalConnection)
    (request : pasl.requestResponse) (payload : list byte)
    (packet : pasl.packetHello PeerInfo) :
  Deserialize_packetHello payload = Return (packet, None) →
  pasl.helloNonce packet ≠ pasl.nonce this →
  ∃ this' array,
    pasl.onHelloCommon Deserialize_packetHello this request payload
      = Return (this', request, None)
    ∧ pasl.state this'
      = Some {| pasl.height := safebox.Index (pasl.helloBlock packet);
                pasl.prevSafeboxHash := array |}
    ∧ pasl.sent this'
      = pasl.sent this
        ++ pasl.StateUpdate :: map pasl.PeerUpdate (pasl.helloPeers packet).
Proof.
  intros Hdecode Hne. unfold pasl.onHelloCommon. rewrite Hdecode. cbn.
  unfold pasl.bytes_Equal. rewrite bool_decide_eq_false_2 by done.
  eexists _, _. split; [reflexivity|]. split; [reflexivity|].
  cbn. by rewrite <- app_assoc.
Qed.

(** C7: when the payload decodes to a hello packet, a nonce equal to the
    connection's own makes [onHelloCommon] return an error with the
    connection untouched (no state recorded, nothing sent to the peer list
    or state channels); a different nonce makes it return nil after
    recording the state and forwarding every peer. *)
Theorem onHelloCommon_loopback (this : PascalConnection)
    (request : pasl.requestResponse) (payload : list byte)
    (packet : pasl.packetHello PeerInfo) :
  Deserialize_packetHello payload = Return (packet, None) →
  (pasl.helloNonce packet = pasl.nonce this →
   ∃ err, pasl.onHelloCommon Deserialize_packetHello this request payload
          = Return (this, request, Some err))
  ∧ (pasl.helloNonce packet ≠ pasl.nonce this →
     ∃ this' array,
       pasl.onHelloCommon Deserialize_packetHello this request payload
         = Return (this', request, None)
       ∧ pasl.state this'
         = Some {| pasl.height := safebox.Index (pasl.helloBlock packet);
                   pasl.prevSafeboxHash := array |}
       ∧ pasl.sent this'
         = pasl.sent this
           ++ pasl.StateUpdate :: map pasl.PeerUpdate (pasl.helloPeers packet)).
Proof.
  intros Hdecode. split.
  - by apply onHelloCommon_own_nonce.
  - by apply onHelloCommon_other_nonce.
Qed.

(** The request handler passes the loopback error on and answers
    nothing. *)
Lemma onHelloRequest_loopback (hello : list byte) (this : PascalConnection)
    (request : pasl.requestResponse) (payload : list byte)
    (packet : pasl.packetHello PeerInfo) :
  Deserialize_packetHello payload = Return (packet, None) →
  pasl.helloNonce packet = pasl.nonce this →
  ∃ err, pasl.onHelloRequest Deserialize_packetHello hello this request payload
         = Return (this, request, [], Some err).
Proof.
  intros Hdecode Heq. unfold pasl.onHelloRequest.
  destruct (onHelloCommon_own_nonce this request payload packet Hdecode Heq)
    as [err Herr].
  rewrite Herr. cbn. eauto.
Qed.

End connection_claims.

(** The same hello payload is refused by the connection whose nonce it
    carries and accepted by another one. *)
Lemma onHelloCommon_loopback_witness :
  (∃ err,
     pasl.onHelloCommon toy.Deserialize_packetHello
       (toy.connection [Byte.x01; Byte.x02; Byte.x03; Byte.x04])
       {| pasl.result := None |}
       [Byte.x01; Byte.x02; Byte.x03; Byte.x04; Byte.xaa]
     = Return (toy.connection [Byte.x01; Byte.x02; Byte.x03; Byte.x04],
               {| pasl.result := None |}, Some err))
  ∧ (∃ this' array,
       pasl.onHelloCommon toy.Deserialize_packetHello
         (toy.connection [Byte.x09; Byte.x09; Byte.x09; Byte.x09])
         {| pasl.result := None |}
         [Byte.x01; Byte.x02; Byte.x03; Byte.x04; Byte.xaa]
       = Return (this', {| pasl.result := None |}, None)
       ∧ pasl.state this'
         = Some {| pasl.height := 9; pasl.prevSafeboxHash := array |}
       ∧ pasl.sent this'
         = [pasl.StateUpdate; pasl.PeerUpdate "peer-a"; pasl.PeerUpdate "peer-b"]).
Proof.
  split.
  - refine (proj1 (onHelloCommon_loopback toy.Deserialize_packetHello
      (toy.connection [Byte.x01; Byte.x02; Byte.x03; Byte.x04])
      {| pasl.result := None |}
      [Byte.x01; Byte.x02; Byte.x03; Byte.x04; Byte.xaa] _ eq_refl) eq_refl).
  - refine (proj2 (onHelloCommon_loopback toy.Deserialize_packetHello
      (toy.connection [Byte.x09; Byte.x09; Byte.x09; Byte.x09])
      {| pasl.result := None |}
      [Byte.x01; Byte.x02; Byte.x03; Byte.x04; Byte.xaa] _ eq_refl) _).
    cbn. discriminate.
Defined.

Section downloading_claims.

Context {Tx PeerInfo : Type}.
Context (Deserialize_packetGetBlocksResponse :
           list byte → outcome (list (safebox.SerializedBlock Tx) * option error)).

(** C8: whatever the response callback of [StartBlocksDownloading] is
    given, what it sends is one [NewBlock] event with [shouldBroadcast =
    false] per block of the decoded response, in order, followed by one
    send on [downloadingDone]; there is no block event when the response is
    nil, when decoding returns an error or when it panics, and the send on
    [downloadingDone] happens exactly once on each of these ways out. *)
Theorem onSuccess_events (this : pasl.PascalConnection Tx PeerInfo)
    (response : option pasl.requestResponse) (payload : list byte) :
  let after := (pasl.StartBlocksDownloading_onSuccess
                  Deserialize_packetGetBlocksResponse this response payload).1 in
  let blocks :=
    match response, Deserialize_packetGetBlocksResponse payload with
    | Some _, Return (Blocks, None) => Blocks
    | _, _ => []
    end in
  let events := map (λ it, pasl.NewBlock it false) blocks ++ [pasl.DownloadingDone] in
  pasl.sent after = pasl.sent this ++ events
  ∧ length (List.filter (λ e, if e is pasl.DownloadingDone then true else false)
              events) = 1%nat
  ∧ length (List.filter (λ e, if e is pasl.NewBlock _ _ then true else false)
              events) = length blocks
  ∧ pasl.state after = pasl.state this
  ∧ pasl.heap after = pasl.heap this.
Proof.
  intros after blocks events.
  assert (Hdone : ∀ l : list (safebox.SerializedBlock Tx),
    List.filter (λ e : pasl.event Tx PeerInfo,
                   if e is pasl.DownloadingDone then true else false)
      (map (λ it, pasl.NewBlock it false) l) = []).
  { induction l as [|x l IH]; [done|]. cbn. exact IH. }
  assert (Hblocks : ∀ l : list (safebox.SerializedBlock Tx),
    length (List.filter (λ e : pasl.event Tx PeerInfo,
                           if e is pasl.NewBlock _ _ then true else false)
              (map (λ it, pasl.NewBlock it false) l)) = length l).
  { induction l as [|x l IH]; [done|]. cbn. by rewrite IH. }
  split; [|split; [|split]].
  - unfold after, events, blocks, pasl.StartBlocksDownloading_onSuccess.
    destruct response as [r|]; [|reflexivity].
    destruct (Deserialize_packetGetBlocksResponse payload) as [[Blocks [err|]]|msg];
      cbn; try reflexivity.
    by rewrite <- app_assoc.
  - unfold events. rewrite List.filter_app, Hdone. reflexivity.
  - unfold events. rewrite List.filter_app, length_app, Hblocks. cbn. lia.
  - unfold after, pasl.StartBlocksDownloading_onSuccess.
    destruct response as [r|]; [|split; reflexivity].
    destruct (Deserialize_packetGetBlocksResponse payload) as [[Blocks [err|]]|msg];
      split; reflexivity.
Qed.

(** What the callback returns: an error for a nil response, the decoder's
    error or panic, nil otherwise. *)
Lemma onSuccess_returned (this : pasl.PascalConnection Tx PeerInfo)
    (response : option pasl.requestResponse) (payload : list byte) :
  (pasl.StartBlocksDownloading_onSuccess
     Deserialize_packetGetBlocksResponse this response payload).2
  = match response with
    | None => Return (Some (errorString "GetBlocks request failed"))
    | Some _ => '(_, err) ← Deserialize_packetGetBlocksResponse payload; mret err
    end.
Proof.
  unfold pasl.StartBlocksDownloading_onSuccess.
  destruct response as [r|]; [|reflexivity].
  by destruct (Deserialize_packetGetBlocksResponse payload) as [[Blocks [err|]]|msg].
Qed.

End downloading_claims.

(** ** The getblocks handler *)

Section getblocks_facts.

(** X4: after the swap and the clamp of [onGetBlocksRequest] the range
    starts at the smaller index, is ordered, and spans at most
    [NetworkBlocksPerRequest]. *)
Lemma onGetBlocksRequest_range_clamped (limit FromIndex ToIndex : Z) :
  0 <= limit < 2 ^ 32 → 0 <= FromIndex < 2 ^ 32 → 0 <= ToIndex < 2 ^ 32 →
  ∃ from to total,
    pasl.onGetBlocksRequest_range limit FromIndex ToIndex = (from, to, total)
    ∧ from = FromIndex `min` ToIndex
    ∧ from <= to <= FromIndex `max` ToIndex
    ∧ total = to - from
    ∧ total <= limit.
Proof.
  intros Hlimit Hfrom Hto. unfold pasl.onGetBlocksRequest_range, uint32.
  destruct (ToIndex <? FromIndex) eqn:Hswap;
    [apply Z.ltb_lt in Hswap|apply Z.ltb_ge in Hswap].
  - rewrite (wrap_small 32 (FromIndex - ToIndex)) by lia.
    destruct (limit <? FromIndex - ToIndex) eqn:Hclamp;
      [apply Z.ltb_lt in Hclamp|apply Z.ltb_ge in Hclamp].
    + rewrite (wrap_small 32 (ToIndex + limit)) by lia.
      eexists _, _, _. split; [reflexivity|]. lia.
    + eexists _, _, _. split; [reflexivity|]. lia.
  - rewrite (wrap_small 32 (ToIndex - FromIndex)) by lia.
    destruct (limit <? ToIndex - FromIndex) eqn:Hclamp;
      [apply Z.ltb_lt in Hclamp|apply Z.ltb_ge in Hclamp].
    + rewrite (wrap_small 32 (FromIndex + limit)) by lia.
      eexists _, _, _. split; [reflexivity|]. lia.
    + eexists _, _, _. split; [reflexivity|]. lia.
Qed.

Context {C : Type} `{!utils.Serializable C}.
Context {Tx Public TargetBase : Type}.
Context (Public_value : Public → utils.value C) (GetCompact : TargetBase → Z).
Context (GetBlock : Z → option (safebox.Block Tx Public TargetBase)).

(** The loop only appends to [serialized], and leaves within
    [ToIndex - index + 2] iterations when [ToIndex] is not the largest
    [uint32]. *)
Lemma onGetBlocksRequest_loop_appends (fuel : nat) (index ToIndex : Z)
    (serialized : list (safebox.SerializedBlock Tx)) :
  0 <= index → ToIndex < 2 ^ 32 - 1 → (Z.to_nat (ToIndex - index + 1) < fuel)%nat →
  (∃ msg, pasl.onGetBlocksRequest_loop Public_value GetCompact GetBlock fuel
            index ToIndex serialized = Some (Panic msg))
  ∨ ∃ found,
      pasl.onGetBlocksRequest_loop Public_value GetCompact GetBlock fuel
        index ToIndex serialized = Some (Return (serialized ++ found))
      ∧ Z.of_nat (length found) <= Z.max 0 (ToIndex - index + 1).
Proof.
  revert index serialized.
  induction fuel as [|fuel IH]; intros index serialized Hindex Hto Hfuel; [lia|].
  cbn [pasl.onGetBlocksRequest_loop].
  destruct (index <=? ToIndex) eqn:Hle;
    [apply Z.leb_le in Hle|apply Z.leb_gt in Hle].
  2:{ right. exists []. rewrite app_nil_r. split; [done|]. cbn [length]. lia. }
  destruct (GetBlock index) as [block|].
  2:{ right. exists []. rewrite app_nil_r. split; [done|]. cbn [length]. lia. }
  destruct (safebox.Block_Serialize Public_value GetCompact block) as [b|msg].
  2:{ left. eauto. }
  unfold uint32. rewrite (wrap_small 32 (index + 1)) by lia.
  destruct (IH (index + 1) (serialized ++ [b])) as [[msg Hp]|(found & Hr & Hlen)];
    [lia|lia|lia| |].
  - left. eauto.
  - right. exists (b :: found). rewrite Hr, <- app_assoc. split; [done|].
    cbn [length]. lia.
Qed.

End getblocks_facts.

Section getblocks_request.

Context {C : Type} `{!utils.Serializable C}.

(** Decoding a getblocks request never fails, whatever the payload: short
    payloads leave zeros in the indices. *)
Lemma Deserialize_packetGetBlocksRequest_total (payload : list byte) :
  ∃ FromIndex ToIndex,
    pasl.Deserialize_packetGetBlocksRequest (C := C) payload
    = Return (FromIndex, ToIndex, None).
Proof.
  unfold pasl.Deserialize_packetGetBlocksRequest, pasl.packetGetBlocksRequest_value.
  cbn [utils.Deserialize utils.get utils.get_each utils.size].
  destruct (utils.read_uint 4 payload) as [from r1].
  cbn. destruct (utils.read_uint 4 r1) as [to r2]. cbn. eauto.
Qed.

(** X26: the request that [StartBlocksDownloading] sends for two 32-bit
    indices is eight bytes long and is decoded by the getblocks handler
    into the same two indices, with a nil error. *)
Lemma getblocks_request_roundtrip (from to : Z) :
  0 <= from < 2 ^ 32 → 0 <= to < 2 ^ 32 →
  ∃ packet,
    pasl.StartBlocksDownloading_packet (C := C) from to = Return packet
    ∧ length packet = 8%nat
    ∧ pasl.Deserialize_packetGetBlocksRequest (C := C) packet
      = Return (from, to, None).
Proof.
  intros Hfrom Hto.
  unfold pasl.StartBlocksDownloading_packet, pasl.Deserialize_packetGetBlocksRequest,
    pasl.packetGetBlocksRequest_value.
  cbn [utils.Serialize utils.put utils.put_each utils.size].
  cbn [mbind mret outcome_bind outcome_ret].
  eexists. split; [reflexivity|]. split.
  - by rewrite !length_app, !PutUint_length.
  - cbn [utils.Deserialize utils.get utils.get_each utils.size].
    rewrite !wrap_small by done.
    rewrite read_uint_PutUint by done.
    cbn [mbind mret outcome_bind outcome_ret].
    rewrite read_uint_PutUint by done. reflexivity.
Qed.

End getblocks_request.

(** C5 (at failing inputs), for the request [getblocks(from=0, to=500)]
    and a limit of 100 blocks per request.  The clamp holds (the range
    becomes 0..100), but the response does not hold at most 100 blocks cut
    at the first missing block: on a chain with no block at all it carries
    100 zero-valued blocks, and on a chain that has every block it carries
    201 blocks (100 zero-valued ones, then blocks 0 to 100), which is the
    count the handler writes in front of its output. *)
Theorem onGetBlocksRequest_response_size :
  let payload := PutUint 4 0 ++ PutUint 4 500 in
  let this := toy.connection [] in
  let request := {| pasl.result := None |} in
  pasl.Deserialize_packetGetBlocksRequest (C := utils.BytesWithoutLengthPrefix) payload
    = Return (0, 500, None)
  ∧ pasl.onGetBlocksRequest_range 100 0 500 = (0, 100, 100)
  ∧ pasl.onGetBlocksRequest_serialized toy.Public_value toy.GetCompact
      toy.GetBlock_none 100 200 0 500
    = Some (Return (replicate 100 safebox.SerializedBlock_zero))
  ∧ (∃ serialized,
       pasl.onGetBlocksRequest_serialized toy.Public_value toy.GetCompact
         toy.GetBlock_full 100 200 0 500 = Some (Return serialized)
       ∧ length serialized = 201%nat
       ∧ take 100 serialized = replicate 100 safebox.SerializedBlock_zero)
  ∧ (∃ out,
       pasl.onGetBlocksRequest toy.Tx_type toy.Tx_value toy.Public_value
         toy.GetCompact toy.GetBlock_full 100 200 this request payload
       = Some (Return (out, {| pasl.result := Some pasl.success |}, None))
       ∧ take 4 out = PutUint 4 201).
Proof.
  intros payload this request.
  split; [reflexivity|]. split; [reflexivity|]. split; [vm_compute; reflexivity|].
  split.
  - eexists. split; [vm_compute; reflexivity|]. split; vm_compute; reflexivity.
  - eexists. split; [vm_compute; reflexivity|]. vm_compute. reflexivity.
Qed.

(** ** Runs on concrete inputs *)

(** The to-be-signed buffer of [ChangeKey{source: 7, op_id: 1, fee: 1,
    payload: "hi", new_public: 02}] whose source key is [03 04], with the
    toy plain serialization (type id 714 in 16 bits, then the key bytes). *)
Example getBufferToSign_bytes :
  tx.getBufferToSign toy.SerializedPlain
    {| tx.Source := 7; tx.OperationId := 1; tx.Fee := 1;
       tx.Payload := [Byte.x68; Byte.x69];
       tx.PublicKey := [Byte.x03; Byte.x04];
       tx.NewPublickey := [Byte.x02];
       tx.Signature := ([] : toy.SignatureSerialized) |}
  = Return [ Byte.x07; Byte.x00; Byte.x00; Byte.x00;
             Byte.x01; Byte.x00; Byte.x00; Byte.x00;
             Byte.x01; Byte.x00; Byte.x00; Byte.x00;
             Byte.x00; Byte.x00; Byte.x00; Byte.x00;
             Byte.x68; Byte.x69;
             Byte.xca; Byte.x02; Byte.x03; Byte.x04;
             Byte.x01; Byte.x00; Byte.x02 ].
Proof. reflexivity. Qed.

(** The sample record goes through [Serialize], the explicit walk, and back
    through [Deserialize]. *)
Example sample_bytes :
  utils.Serialize false toy.sample_value
  = Return [ Byte.x02;
             Byte.x01; Byte.x00; Byte.x02; Byte.x01;
             Byte.x02; Byte.x00; Byte.x00; Byte.x00;
             Byte.x07; Byte.x00; Byte.x00; Byte.x00; Byte.x01; Byte.x00; Byte.x61;
             Byte.x08; Byte.x00; Byte.x00; Byte.x00; Byte.x00; Byte.x00;
             Byte.x02; Byte.x00; Byte.xff; Byte.x00;
             Byte.x00; Byte.x00; Byte.x00; Byte.x00;
             Byte.x00; Byte.x01; Byte.x00; Byte.x00 ]
  ∧ utils.Serialize_walk 9 false toy.sample_value
    = Some (utils.Serialize false toy.sample_value)
  ∧ utils.Serialize_walk 8 false toy.sample_value = None.
Proof. split; [reflexivity|]. split; reflexivity. Qed.




(** Three bytes round-trip and the byte after them is left unread. *)
Lemma DeserializeBytes_SerializeBytes_witness :
  utils.DeserializeBytes
    (utils.SerializeBytes [Byte.x01; Byte.x02; Byte.x03] ++ [Byte.x09])
  = Return ([Byte.x01; Byte.x02; Byte.x03], None, [Byte.x09]).
Proof.
  apply (DeserializeBytes_SerializeBytes [Byte.x01; Byte.x02; Byte.x03] [Byte.x09]).
  by compute.
Defined.

(** Nine iterations walk the sample record. *)
Lemma Serialize_walk_Serialize_witness :
  utils.Serialize_walk 9 false toy.sample_value
  = Some (utils.Serialize false toy.sample_value).
Proof.
  apply (Serialize_walk_Serialize false toy.sample_value 9).
  cbn. lia.
Defined.

(** The request 700..20 is swapped and clamped to 20..120. *)
Lemma onGetBlocksRequest_range_clamped_witness :
  ∃ from to total,
    pasl.onGetBlocksRequest_range 100 700 20 = (from, to, total)
    ∧ from = 700 `min` 20
    ∧ from <= to <= 700 `max` 20
    ∧ total = to - from
    ∧ total <= 100.
Proof.
  apply (onGetBlocksRequest_range_clamped 100 700 20); split; by compute.
Defined.

(** * Further properties of the code *)

(** ** Reading from a buffer *)

Section reading_facts.

(** A successful [io.ReadFull] took the first [n] bytes. *)
Lemma ReadFull_inl (n : nat) (r got r' : list byte) :
  ReadFull n r = (inl got, r') → r = got ++ r' ∧ length got = n.
Proof.
  unfold ReadFull, Buffer_Read. destruct r as [|b r].
  - destruct n; cbn; intros Heq; [by injection Heq as <- <-|discriminate].
  - destruct (n <=? length (take n (b :: r)))%nat eqn:E.
    + intros Heq. injection Heq as <- <-. split; [by rewrite take_drop|].
      apply Nat.leb_le in E. rewrite length_take in *. lia.
    + destruct (take n (b :: r)); discriminate.
Qed.

(** A failed one met the end of the stream: [EOF] when nothing was left,
    [ErrUnexpectedEOF] otherwise. *)
Lemma ReadFull_inr (n : nat) (r r' : list byte) (e : error) :
  ReadFull n r = (inr e, r') →
  r' = [] ∧ (length r < n)%nat ∧ e = (if r is [] then EOF else ErrUnexpectedEOF).
Proof.
  unfold ReadFull, Buffer_Read. destruct r as [|b r].
  - destruct n; cbn; intros Heq; [discriminate|].
    injection Heq as <- <-. split; [done|]. split; [lia|done].
  - destruct (n <=? length (take n (b :: r)))%nat eqn:E; [discriminate|].
    apply Nat.leb_gt in E. rewrite length_take in E.
    assert (Hlt : (length (b :: r) < n)%nat) by lia.
    rewrite take_ge by lia. intros Heq. by injection Heq as <- <-.
Qed.


Lemma PutUint_Uint (bs : list byte) : PutUint (length bs) (Uint bs) = bs.
Proof.
  induction bs as [|b bs IH]; [done|].
  cbn [length PutUint Uint]. pose proof (Z_of_byte_range b) as Hb.
  rewrite lor_shiftl_8 by done. f_equal.
  - rewrite <- (byte_of_Z_of_byte b) at 2. unfold byte_of_Z.
    replace ((Z_of_byte b + 256 * Uint bs) mod 256) with (Z_of_byte b mod 256);
      [done|].
    by rewrite (Z.mul_comm 256), Z.mod_add by lia.
  - transitivity (PutUint (length bs) (Uint bs)); [f_equal|exact IH].
    rewrite Z.shiftr_div_pow2 by lia. change (2 ^ 8) with 256.
    rewrite (Z.mul_comm 256), Z.div_add by lia.
    rewrite (Z.div_small (Z_of_byte b)) by done. lia.
Qed.

End reading_facts.

(** ** The codec on arbitrary streams and values *)

Section codec_streams.

Context {C : Type} `{!utils.Serializable C}.

Import utils.








(** X6: the encoding of wire values of one type is prefix-free, so that
    encodings can be laid end to end: two streams that begin with the
    encodings of [v1] and [v2] and are equal have [v1 = v2] and the same
    continuation. *)
Lemma Serialize_prefix_free (v1 v2 : value C) (t : type C) (p1 p2 : bool)
    (bs1 bs2 rest1 rest2 : list byte) :
  not_slice t → wire_value v1 t → wire_value v2 t →
  Serialize p1 v1 = Return bs1 → Serialize p2 v2 = Return bs2 →
  bs1 ++ rest1 = bs2 ++ rest2 →
  v1 = v2 ∧ bs1 = bs2 ∧ rest1 = rest2.
Proof.
  intros Hroot Hv1 Hv2 Hs1 Hs2 Heq.
  assert (Hput : ∀ p v, wire_value v t → Serialize p v = put p v).
  { intros p v Hv. inversion Hv; subst; try contradiction; reflexivity. }
  rewrite Hput in Hs1, Hs2 by done.
  destruct (put_new v1 t p1 Hv1) as (b1 & Hp1 & Hn1).
  destruct (put_new v2 t p2 Hv2) as (b2 & Hp2 & Hn2).
  rewrite Hp1 in Hs1. rewrite Hp2 in Hs2.
  injection Hs1 as ->. injection Hs2 as ->.
  specialize (Hn1 rest1). specialize (Hn2 rest2). rewrite Heq, Hn2 in Hn1.
  injection Hn1 as -> ->. split; [done|]. split; [|done].
  by apply app_inv_tail in Heq.
Qed.

(** X7: the walker writes a byte-sequence field exactly as
    [SerializeBytes] writes the sequence, whatever its length: two length
    bytes (the length modulo [2^16]) and the bytes. *)
Lemma Serialize_bytes_field (b : list byte) (addr : bool) :
  put addr (VBytes b : value C) = Return (SerializeBytes b)
  ∧ Serialize addr (VStruct None [VBytes b] : value C) = Return (SerializeBytes b).
Proof.
  assert (Hput : put addr (VBytes b : value C) = Return (SerializeBytes b)).
  { cbn [put]. rewrite SerializeBytes_prefix. unfold uint16.
    change 16 with (8 * Z.of_nat 2). by rewrite PutUint_wrap. }
  split; [done|].
  destruct addr; cbn [Serialize put put_each];
    cbn [mbind mret outcome_bind outcome_ret]; rewrite app_nil_r; exact Hput.
Qed.

(** X8: [Serialize] accepts a byte sequence of any length, but the prefix
    holds its length modulo [2^16]; [Deserialize] then reads back only that
    many bytes and leaves the others in the stream, in front of what
    followed. *)
Lemma Deserialize_bytes_field_wraps (b old rest : list byte) (ptr : bool) :
  let m := Z.to_nat (Z.of_nat (length b) mod 2 ^ 16) in
  ∃ bs, Serialize ptr (VStruct None [VBytes b] : value C) = Return bs
        ∧ Deserialize (VStruct None [VBytes old]) (bs ++ rest)
          = Return (VStruct None [VBytes (take m b)], drop m b ++ rest, None).
Proof.
  intros m.
  assert (Hm : (m <= length b)%nat).
  { unfold m. pose proof (Z.mod_pos_bound (Z.of_nat (length b)) (2 ^ 16)).
    pose proof (Z.mod_le (Z.of_nat (length b)) (2 ^ 16)). lia. }
  exists (PutUint 2 (uint16 (Z.of_nat (length b))) ++ b). split.
  { destruct ptr; cbn [Serialize put put_each];
      cbn [mbind mret outcome_bind outcome_ret]; by rewrite app_nil_r. }
  cbn [Deserialize get get_each].
  rewrite <- app_assoc.
  rewrite read_uint_PutUint by (apply (wrap_range 16); lia).
  assert (Hread : ReadFull m (b ++ rest) = (inl (take m b), drop m b ++ rest)).
  { replace (b ++ rest) with (take m b ++ (drop m b ++ rest))
      by (by rewrite app_assoc, take_drop).
    pose proof (ReadFull_app (take m b) (drop m b ++ rest)) as Hfull.
    by rewrite length_take_le in Hfull by done. }
  unfold read_bytes, binary_Read_bytes, uint16, wrap. fold m. rewrite Hread.
  reflexivity.
Qed.




End codec_streams.

(** ** [DeserializeBytes] on arbitrary streams *)

Section bytes_streams.

Import utils.

(** What [DeserializeBytes] does on a stream of two bytes or more. *)
Lemma DeserializeBytes_two (b0 b1 : byte) (r1 : list byte) :
  DeserializeBytes (b0 :: b1 :: r1)
  = if 128 <=? Z_of_byte b1 then Panic "makeslice: len out of range"
    else match ReadFull (Z.to_nat (Z_of_byte b0 + 256 * Z_of_byte b1)) r1 with
         | (inr err, r2) => Return ([], Some err, r2)
         | (inl data, r2) => Return (data, None, r2)
         end.
Proof.
  unfold DeserializeBytes, binary_Read_uint.
  change (ReadFull 2 (b0 :: b1 :: r1)) with (@inl _ error [b0; b1], r1).
  pose proof (Z_of_byte_range b0) as Hb0. pose proof (Z_of_byte_range b1) as Hb1.
  assert (Huint : Uint [b0; b1] = Z_of_byte b0 + 256 * Z_of_byte b1).
  { cbn [Uint]. rewrite (lor_shiftl_8 (Z_of_byte b1) 0) by done.
    rewrite lor_shiftl_8 by done. lia. }
  cbv beta iota. rewrite Huint. unfold int16, uint16, binary_Read_bytes.
  rewrite wrap_small by lia.
  destruct (128 <=? Z_of_byte b1) eqn:Htop;
    [apply Z.leb_le in Htop|apply Z.leb_gt in Htop].
  - destruct (2 ^ 15 <=? Z_of_byte b0 + 256 * Z_of_byte b1) eqn:E;
      [|apply Z.leb_gt in E; lia].
    destruct (Z_of_byte b0 + 256 * Z_of_byte b1 - 2 ^ 16 <? 0) eqn:E'; [done|].
    apply Z.ltb_ge in E'. lia.
  - destruct (2 ^ 15 <=? Z_of_byte b0 + 256 * Z_of_byte b1) eqn:E;
      [apply Z.leb_le in E; lia|].
    destruct (Z_of_byte b0 + 256 * Z_of_byte b1 <? 0) eqn:E';
      [apply Z.ltb_lt in E'; lia|].
    reflexivity.
Qed.

Lemma SerializeBytes_two (b0 b1 : byte) (data : list byte) :
  Z.of_nat (length data) = Z_of_byte b0 + 256 * Z_of_byte b1 →
  SerializeBytes data = b0 :: b1 :: data.
Proof.
  intros Hlen. rewrite SerializeBytes_prefix.
  change (b0 :: b1 :: data) with ([b0; b1] ++ data). f_equal.
  rewrite <- (PutUint_Uint [b0; b1]). cbn [length]. f_equal.
  pose proof (Z_of_byte_range b0). pose proof (Z_of_byte_range b1).
  cbn [Uint]. rewrite (lor_shiftl_8 (Z_of_byte b1) 0) by done.
  rewrite lor_shiftl_8 by done. lia.
Qed.

(** X10: [DeserializeBytes] is the exact inverse of [SerializeBytes] below
    [2^15] bytes: it returns [data] with a nil error and leaves [rest]
    exactly on the streams made of [SerializeBytes(data)] followed by
    [rest], for [data] shorter than [2^15]. *)
Lemma DeserializeBytes_inverse (r data rest : list byte) :
  DeserializeBytes r = Return (data, None, rest)
  ↔ r = SerializeBytes data ++ rest ∧ Z.of_nat (length data) < 2 ^ 15.
Proof.
  split.
  - destruct r as [|b0 [|b1 r1]]; [discriminate|discriminate|].
    rewrite DeserializeBytes_two.
    pose proof (Z_of_byte_range b0) as Hb0. pose proof (Z_of_byte_range b1) as Hb1.
    destruct (128 <=? Z_of_byte b1) eqn:Htop; [discriminate|].
    apply Z.leb_gt in Htop.
    destruct (ReadFull _ r1) as [[got|e] r2] eqn:Hread; [|discriminate].
    intros Heq. injection Heq as -> ->.
    apply ReadFull_inl in Hread as [-> Hlen].
    assert (Hdata : Z.of_nat (length data) = Z_of_byte b0 + 256 * Z_of_byte b1)
      by lia.
    split; [|lia]. by rewrite (SerializeBytes_two b0 b1).
  - intros [-> Hlen]. unfold DeserializeBytes.
    rewrite SerializeBytes_prefix, <- app_assoc, binary_Read_uint_app.
    change (8 * Z.of_nat 2) with 16.
    rewrite (Z.mod_small (Z.of_nat (length data))) by lia.
    unfold int16, uint16. rewrite wrap_small by lia.
    destruct (2 ^ 15 <=? Z.of_nat (length data)) eqn:E; [apply Z.leb_le in E; lia|].
    destruct (Z.of_nat (length data) <? 0) eqn:E'; [apply Z.ltb_lt in E'; lia|].
    unfold binary_Read_bytes. by rewrite Nat2Z.id, ReadFull_app.
Qed.

(** X11: [DeserializeBytes] panics exactly on the streams of two bytes or
    more whose second byte has its top bit set (a length prefix of [2^15]
    or more, negative as an [int16]), whatever follows. *)
Lemma DeserializeBytes_panics_iff (r : list byte) :
  (∃ msg, DeserializeBytes r = Panic msg)
  ↔ ∃ b0 b1 rest, r = b0 :: b1 :: rest ∧ 128 <= Z_of_byte b1.
Proof.
  split.
  - intros [msg Hpanic].
    destruct r as [|b0 [|b1 r1]]; [discriminate|discriminate|].
    exists b0, b1, r1. split; [done|].
    rewrite DeserializeBytes_two in Hpanic.
    destruct (128 <=? Z_of_byte b1) eqn:Htop; [by apply Z.leb_le|].
    by destruct (ReadFull _ r1) as [[got|e] r2].
  - intros (b0 & b1 & rest & -> & Htop).
    rewrite DeserializeBytes_two.
    apply Z.leb_le in Htop. rewrite Htop. eauto.
Qed.

(** X12: [DeserializeBytes] returns an error exactly when the stream ends
    inside the two length bytes or before the announced number of bytes;
    the data returned is then nil and the stream is drained.  The error is
    [EOF] when the read that failed found nothing, [ErrUnexpectedEOF]
    otherwise. *)
Lemma DeserializeBytes_error_iff (r data rest : list byte) (e : error) :
  DeserializeBytes r = Return (data, Some e, rest)
  ↔ data = [] ∧ rest = []
    ∧ ((r = [] ∧ e = EOF)
       ∨ (∃ b0, r = [b0] ∧ e = ErrUnexpectedEOF)
       ∨ (∃ b0 b1 r1,
            r = b0 :: b1 :: r1 ∧ Z_of_byte b1 < 128
            ∧ Z.of_nat (length r1) < Z_of_byte b0 + 256 * Z_of_byte b1
            ∧ e = (if r1 is [] then EOF else ErrUnexpectedEOF))).
Proof.
  split.
  - destruct r as [|b0 [|b1 r1]].
    + intros Heq. injection Heq as <- <- <-. by eauto 10.
    + intros Heq. injection Heq as <- <- <-. by eauto 10.
    + rewrite DeserializeBytes_two.
      destruct (128 <=? Z_of_byte b1) eqn:Htop; [discriminate|].
      apply Z.leb_gt in Htop.
      destruct (ReadFull _ r1) as [[got|e'] r2] eqn:Hread; [discriminate|].
      intros Heq. injection Heq as <- <- <-.
      apply ReadFull_inr in Hread as (-> & Hlen & ->).
      split; [done|]. split; [done|]. right. right.
      exists b0, b1, r1. split; [done|]. split; [done|]. split; [lia|done].
  - intros (-> & -> & [[-> ->]|[(b0 & -> & ->)|(b0 & b1 & r1 & -> & Htop & Hlen & ->)]]).
    + reflexivity.
    + reflexivity.
    + rewrite DeserializeBytes_two.
      apply Z.leb_gt in Htop. rewrite Htop.
      destruct (ReadFull_short (Z.to_nat (Z_of_byte b0 + 256 * Z_of_byte b1)) r1)
        as [e He]; [lia|].
      rewrite He. by apply ReadFull_inr in He as (_ & _ & ->).
Qed.

(** ** [BytesWithoutLengthPrefix] *)

(** X13: what [BytesWithoutLengthPrefix.Serialize] writes is read back by
    [Deserialize] into a receiver whose buffer has the same length, with a
    nil error, and what follows in the stream is left unread. *)
Lemma BytesWithoutLengthPrefix_round_trip (this : BytesWithoutLengthPrefix)
    (b rest : list byte) :
  length (Bytes this) = length b →
  BytesWithoutLengthPrefix_Deserialize this
    ((BytesWithoutLengthPrefix_Serialize {| Bytes := b |}).1 ++ rest)
  = ({| Bytes := b |}, rest, None).
Proof.
  intros Hlen. cbn [BytesWithoutLengthPrefix_Serialize Bytes fst].
  unfold BytesWithoutLengthPrefix_Deserialize, Buffer_Read. rewrite Hlen.
  destruct (b ++ rest) as [|x l] eqn:E.
  - apply app_eq_nil in E as [-> ->]. cbn.
    by rewrite (nil_length_inv (Bytes this)).
  - rewrite <- E, take_app_length, drop_app_length.
    by rewrite drop_ge, app_nil_r by lia.
Qed.

(** X14: [BytesWithoutLengthPrefix.Deserialize] overwrites the first
    [min(len(Bytes), available)] bytes of the receiver's buffer and consumes
    just those; the buffer keeps its length (a receiver with a nil buffer
    reads nothing).  A short read is not an error: the only error is [EOF],
    returned exactly when the stream is empty and the buffer is not. *)
Lemma BytesWithoutLengthPrefix_Deserialize_short
    (this : BytesWithoutLengthPrefix) (r : Buffer) :
  let '(this', r', err) := BytesWithoutLengthPrefix_Deserialize this r in
  let m := (length (Bytes this) `min` length r)%nat in
  Bytes this' = take m r ++ drop m (Bytes this)
  ∧ length (Bytes this') = length (Bytes this)
  ∧ r' = drop m r
  ∧ (err = None ∨ err = Some EOF)
  ∧ (err = Some EOF ↔ r = [] ∧ Bytes this ≠ []).
Proof.
  unfold BytesWithoutLengthPrefix_Deserialize, Buffer_Read.
  destruct r as [|x r].
  - rewrite Nat.min_0_r.
    destruct (length (Bytes this) =? 0)%nat eqn:E;
      [apply Nat.eqb_eq in E|apply Nat.eqb_neq in E]; cbn; rewrite ?drop_0.
    + split; [done|]. split; [done|]. split; [done|]. split; [by left|].
      split; [done|]. intros [_ Hne]. by apply nil_length_inv in E.
    + split; [done|]. split; [done|]. split; [done|]. split; [by right|].
      split; [|done]. intros _. split; [done|]. intros Hnil. apply E.
      by rewrite Hnil.
  - set (n := length (Bytes this)). set (l := x :: r).
    assert (Htake : take n l = take (n `min` length l) l).
    { destruct (Nat.le_ge_cases n (length l)) as [Hle|Hge].
      - by rewrite Nat.min_l.
      - rewrite Nat.min_r by done. by rewrite !take_ge by lia. }
    assert (Hdrop : drop n l = drop (n `min` length l) l).
    { destruct (Nat.le_ge_cases n (length l)) as [Hle|Hge].
      - by rewrite Nat.min_l.
      - rewrite Nat.min_r by done. by rewrite !drop_ge by lia. }
    cbn [Bytes]. rewrite length_take.
    split; [by rewrite Htake|]. split.
    { rewrite length_app, length_take, length_drop. lia. }
    split; [done|]. split; [by left|]. split; [done|]. by intros [? _].
Qed.

End bytes_streams.

(** ** The wire form of a ChangeKey *)

Section changekey_wire.

Import utils.

Context {Public SignatureSerialized : Type}.
Context (Public_value : Public → value BytesWithoutLengthPrefix).
Context (Signature_value : SignatureSerialized → value BytesWithoutLengthPrefix).

(** X15: what [ChangeKey.Serialize] writes is, in this order, source and
    operation id in 32 bits, the fee in 64 bits, the payload behind a
    16-bit length prefix, the encoding of the source public key, the new
    public key behind a 16-bit length prefix, and the encoding of the
    signature; the error returned is nil, and the call panics exactly when
    encoding the key or the signature does. *)
Lemma ChangeKey_Serialize_layout (this : tx.ChangeKey Public SignatureSerialized) :
  tx.ChangeKey_Serialize Public_value Signature_value this
  = (public ← put true (Public_value (tx.PublicKey this));
     signature ← put true (Signature_value (tx.Signature this));
     mret (tx.wire_layout this public signature, None)).
Proof.
  unfold tx.ChangeKey_Serialize, tx.wire_layout, tx.ChangeKey_value.
  cbn [Serialize put put_each].
  cbn [mbind mret outcome_bind outcome_ret size].
  destruct (put true (Public_value (tx.PublicKey this))) as [public|msg];
    [|reflexivity].
  cbn [mbind mret outcome_bind outcome_ret].
  destruct (put true (Signature_value (tx.Signature this))) as [signature|msg];
    [|reflexivity].
  cbn [mbind mret outcome_bind outcome_ret].
  rewrite app_nil_r.
  change (bits Uint32) with (8 * Z.of_nat 4).
  change (bits Uint64) with (8 * Z.of_nat 8).
  unfold uint16. change 16 with (8 * Z.of_nat 2).
  rewrite !PutUint_wrap, !PutUint_little_endian.
  by rewrite <- ?app_assoc.
Qed.

End changekey_wire.

(** ** Blocks built by [NewBlock] *)

Section newblock_facts.

Import utils.

Context {C : Type} `{!Serializable C}.
Context {Tx Public TargetBase : Type}.
Context (Tx_GetFee : Tx → Z) (Tx_SerializeUnderlying : Tx → list byte).
Context (Sum256 : list byte → list byte).
Context (NewPublic : list byte → Public + error).
Context (Public_value : Public → value C).
Context (NewTarget : Z → TargetBase) (GetCompact : TargetBase → Z).
Context (getReward : Z → Z).
Context (AccountHashBuffer : type C).
Context (GetHashBuffer : accounter.Account Public → value C).

Abbreviation NewBlock :=
  (safebox.NewBlock Tx_GetFee Tx_SerializeUnderlying Sum256 NewPublic NewTarget
     getReward AccountHashBuffer GetHashBuffer).

(** X16: the only error [NewBlock] returns is the one of parsing the miner
    key, and it returns it exactly when the key does not parse; it returns
    a block or an error, never both and never neither. *)
Lemma NewBlock_error_iff (meta : safebox.BlockMetadata Tx) :
  (∀ err, NewBlock meta = Return (None, Some err)
          ↔ NewPublic (safebox.metaMiner meta) = inr err)
  ∧ ∀ block err, NewBlock meta = Return (block, err) → is_Some block ↔ err = None.
Proof.
  unfold safebox.NewBlock.
  destruct (safebox.NewBlock_loop Tx_GetFee [] 0 (safebox.metaOperations meta))
    as [operations fee].
  destruct (NewPublic (safebox.metaMiner meta)) as [miner|e].
  - match goal with
    | |- context [?m ≫= _] => destruct m as [hash|msg]
    end; cbn; (split; [intros err; split; discriminate|]);
      intros block err Heq; [|discriminate].
    injection Heq as <- <-. split; [done|]. by eauto.
  - split.
    + intros err. split; intros Heq; by injection Heq as ->.
    + intros block err Heq. injection Heq as <- <-.
      split; [intros [? ?]; discriminate|discriminate].
Qed.

(** X17: a block built by [NewBlock] at index [n] has exactly five
    accounts, numbered [n], [n+1], ..., [n+4] modulo [2^32] in this order,
    each holding the miner's key, a zero balance, the updated-index [n] and
    no operation. *)
Lemma NewBlock_accounts (meta : safebox.BlockMetadata Tx)
    (block : safebox.Block Tx Public TargetBase) :
  NewBlock meta = Return (Some block, None) →
  ∃ miner,
    NewPublic (safebox.metaMiner meta) = inl miner
    ∧ safebox.GetMiner block = miner
    ∧ safebox.blockAccounts block
      = map (λ i, {| accounter.Number := uint32 (i + safebox.metaIndex meta);
                     accounter.PublicKey := miner;
                     accounter.Balance := 0;
                     accounter.UpdatedIndex := safebox.metaIndex meta;
                     accounter.Operations := 0 |}) [0; 1; 2; 3; 4].
Proof.
  unfold safebox.NewBlock.
  destruct (safebox.NewBlock_loop Tx_GetFee [] 0 (safebox.metaOperations meta))
    as [operations fee].
  destruct (NewPublic (safebox.metaMiner meta)) as [miner|e]; [|discriminate].
  match goal with
  | |- context [?m ≫= _] => destruct m as [hash|msg]
  end; [|discriminate].
  cbn. intros Heq. injection Heq as <-. exists miner. by repeat split.
Qed.

(** X18: the hash [NewBlock] gives a block depends on the index, the miner
    key and the timestamp of the metadata only: two blocks built from
    metadata that agree on these three have the same hash, whatever their
    operations, payloads, nonces, targets and previous safebox hashes. *)
Lemma NewBlock_hash_inputs (meta1 meta2 : safebox.BlockMetadata Tx)
    (block1 block2 : safebox.Block Tx Public TargetBase) :
  safebox.metaIndex meta1 = safebox.metaIndex meta2 →
  safebox.metaMiner meta1 = safebox.metaMiner meta2 →
  safebox.metaTimestamp meta1 = safebox.metaTimestamp meta2 →
  NewBlock meta1 = Return (Some block1, None) →
  NewBlock meta2 = Return (Some block2, None) →
  safebox.blockHash block1 = safebox.blockHash block2.
Proof.
  intros Hindex Hminer Htime. unfold safebox.NewBlock.
  destruct (safebox.NewBlock_loop Tx_GetFee [] 0 (safebox.metaOperations meta1))
    as [operations1 fee1].
  destruct (safebox.NewBlock_loop Tx_GetFee [] 0 (safebox.metaOperations meta2))
    as [operations2 fee2].
  rewrite <- Hminer.
  destruct (NewPublic (safebox.metaMiner meta1)) as [miner|e]; [|discriminate].
  unfold safebox.GetHash, safebox.GetAccountsSerialized, safebox.GetIndex,
    safebox.GetTimestamp, safebox.GetMiner.
  cbn [safebox.set_Accounts safebox.blockMeta safebox.blockAccounts
       safebox.blockMiner].
  rewrite <- Hindex, <- Htime.
  destruct (Serialize false _) as [buf|msg]; [|discriminate].
  cbn. intros Heq1 Heq2. injection Heq1 as <-. injection Heq2 as <-.
  reflexivity.
Qed.

(** X19: from metadata to the wire.  The serialized form of a block built
    by [NewBlock] carries the index, timestamp, nonce, payload and previous
    safebox hash of the metadata, its operations in order and their
    operations hash, the fee summed in 64 bits, the reward of the index,
    the compact form of the target and the encoding of the parsed miner
    key; its header tag is 2; its version is 1.1 whatever the version in
    the metadata, and its proof of work is empty. *)
Lemma NewBlock_Serialize (meta : safebox.BlockMetadata Tx)
    (block : safebox.Block Tx Public TargetBase) (sb : safebox.SerializedBlock Tx) :
  NewBlock meta = Return (Some block, None) →
  safebox.Block_Serialize Public_value GetCompact block = Return sb →
  let h := safebox.Header sb in
  safebox.HeaderOnly h = 2
  ∧ safebox.Version h = {| common.Major := 1; common.Minor := 1 |}
  ∧ safebox.Index h = safebox.metaIndex meta
  ∧ (∃ miner, NewPublic (safebox.metaMiner meta) = inl miner
              ∧ Serialize true (Public_value miner) = Return (safebox.Miner h))
  ∧ safebox.Reward h = getReward (safebox.metaIndex meta)
  ∧ safebox.Fee h = uint64 (safebox.fee_sum Tx_GetFee (safebox.metaOperations meta))
  ∧ safebox.Time h = safebox.metaTimestamp meta
  ∧ safebox.Target h = GetCompact (NewTarget (safebox.metaTarget meta))
  ∧ safebox.Nonce h = safebox.metaNonce meta
  ∧ safebox.Payload h = safebox.metaPayload meta
  ∧ safebox.PrevSafeboxHash h = safebox.metaPrevSafeBoxHash meta
  ∧ safebox.OperationsHash h
    = safebox.GetOperationsHash Tx_SerializeUnderlying Sum256
        (safebox.metaOperations meta)
  ∧ safebox.Pow h = []
  ∧ safebox.Operations sb = safebox.metaOperations meta.
Proof.
  unfold safebox.NewBlock. rewrite NewBlock_loop_sum. cbn [app].
  destruct (NewPublic (safebox.metaMiner meta)) as [miner|e]; [|discriminate].
  match goal with
  | |- context [?m ≫= _] => destruct m as [hash|msg]
  end; [|discriminate].
  cbn [mbind mret outcome_bind outcome_ret]. intros Heq. injection Heq as <-.
  unfold safebox.Block_Serialize, safebox.SerializeHeader.
  cbn [safebox.GetMiner safebox.set_Hash safebox.set_Accounts safebox.blockMiner].
  destruct (Serialize true (Public_value miner)) as [bytes|msg] eqn:Hminer;
    [|discriminate].
  cbn [mbind mret outcome_bind outcome_ret]. intros Heq. injection Heq as <-.
  cbn. repeat (split; [try done|]); [by eauto| |done].
  destruct (safebox.metaOperations meta); [done|]. by rewrite Z.add_0_l.
Qed.

End newblock_facts.

(** ** The connection state and the hello handler *)

Section connection_facts.

Context {Tx PeerInfo : Type}.
Context (Deserialize_packetHello :
           list byte → outcome (pasl.packetHello PeerInfo * option error)).

(** X20: two calls of [SetState] leave the connection with the second
    height and a second array, distinct from the one the first call made;
    the first array still holds what the first call stored (a slice
    obtained from [GetState] in between is not written to), and the
    connection was sent on [onStateUpdate] twice. *)
Lemma SetState_twice (this : pasl.PascalConnection Tx PeerInfo)
    (height1 height2 : Z) (hash1 hash2 : list byte) :
  let this1 := pasl.SetState this height1 hash1 in
  let this2 := pasl.SetState this1 height2 hash2 in
  ∃ array1 array2 stored1,
    pasl.GetState this1 = Return (height1, array1)
    ∧ pasl.GetState this2 = Return (height2, array2)
    ∧ array1 ≠ array2
    ∧ pasl.heap this1 !! array1 = Some stored1
    ∧ pasl.heap this2 !! array1 = Some stored1
    ∧ pasl.sent this2 = pasl.sent this ++ [pasl.StateUpdate; pasl.StateUpdate].
Proof.
  intros this1 this2.
  exists (fresh (dom (pasl.heap this))), (fresh (dom (pasl.heap this1))),
    (pasl.copy (take 32 (replicate 32 Byte.x00)) hash1).
  assert (Hne : fresh (dom (pasl.heap this)) ≠ fresh (dom (pasl.heap this1))).
  { intros Heq. apply (is_fresh (dom (pasl.heap this1))). rewrite <- Heq.
    unfold this1, pasl.SetState. cbn [pasl.heap].
    rewrite dom_insert. set_solver. }
  split; [reflexivity|]. split; [reflexivity|]. split; [exact Hne|].
  split; [apply lookup_insert_eq|]. split.
  - unfold this2, pasl.SetState at 1. cbn [pasl.heap].
    rewrite lookup_insert_ne by (by apply not_eq_sym).
    apply lookup_insert_eq.
  - cbn. by rewrite <- app_assoc.
Qed.

(** X21: the hello request handler on its ways out.  Whenever it returns an
    error (the payload does not decode, or the nonce is the connection's
    own), the connection is as before (no state recorded, nothing sent),
    the answer is empty and the result code is untouched or
    [invalidDataBufferInfo].  Whenever it returns nil, the payload decoded
    to a packet with another nonce, the answer is the connection's own
    hello, the result code is [success], and the connection has recorded
    the peer's state and forwarded the peers of the packet, in order. *)
Lemma onHelloRequest_outcomes (hello : list byte)
    (this this' : pasl.PascalConnection Tx PeerInfo)
    (request request' : pasl.requestResponse) (payload out : list byte)
    (err : option error) :
  pasl.onHelloRequest Deserialize_packetHello hello this request payload
    = Return (this', request', out, err) →
  match err with
  | Some _ =>
      this' = this ∧ out = []
      ∧ (request' = request
         ∨ request' = pasl.setError request pasl.invalidDataBufferInfo)
  | None =>
      ∃ packet,
        Deserialize_packetHello payload = Return (packet, None)
        ∧ pasl.helloNonce packet ≠ pasl.nonce this
        ∧ out = hello
        ∧ request' = pasl.setError request pasl.success
        ∧ this' = pasl.send
                    (pasl.SetState this (safebox.Index (pasl.helloBlock packet))
                       (safebox.PrevSafeboxHash (pasl.helloBlock packet)))
                    (map pasl.PeerUpdate (pasl.helloPeers packet))
  end.
Proof.
  unfold pasl.onHelloRequest, pasl.onHelloCommon.
  destruct (Deserialize_packetHello payload) as [[packet [e|]]|msg];
    cbn [mbind mret outcome_bind outcome_ret]; [| |discriminate].
  - intros Heq. injection Heq as <- <- <- <-. by eauto.
  - unfold pasl.bytes_Equal.
    destruct (bool_decide (pasl.helloNonce packet = pasl.nonce this)) eqn:Hnonce;
      cbn [mbind mret outcome_bind outcome_ret];
      intros Heq; injection Heq as <- <- <- <-.
    + by eauto.
    + apply bool_decide_eq_false in Hnonce. exists packet. by repeat split.
Qed.

End connection_facts.

(** ** The getblocks handler on every request *)

Section getblocks_handler.

(** The range after the swap and the clamp, in closed form. *)
Lemma onGetBlocksRequest_range_closed (limit FromIndex ToIndex : Z) :
  0 <= limit → 0 <= FromIndex < 2 ^ 32 → 0 <= ToIndex < 2 ^ 32 →
  let from := FromIndex `min` ToIndex in
  let total := limit `min` Z.abs (ToIndex - FromIndex) in
  pasl.onGetBlocksRequest_range limit FromIndex ToIndex = (from, from + total, total).
Proof.
  intros Hlimit Hfrom Hto. unfold pasl.onGetBlocksRequest_range, uint32.
  destruct (ToIndex <? FromIndex) eqn:Hswap;
    [apply Z.ltb_lt in Hswap|apply Z.ltb_ge in Hswap].
  - rewrite (wrap_small 32 (FromIndex - ToIndex)) by lia.
    destruct (limit <? FromIndex - ToIndex) eqn:Hclamp;
      [apply Z.ltb_lt in Hclamp|apply Z.ltb_ge in Hclamp].
    + rewrite (wrap_small 32 (ToIndex + limit)) by lia.
      cbv zeta. repeat f_equal; lia.
    + cbv zeta. repeat f_equal; lia.
  - rewrite (wrap_small 32 (ToIndex - FromIndex)) by lia.
    destruct (limit <? ToIndex - FromIndex) eqn:Hclamp;
      [apply Z.ltb_lt in Hclamp|apply Z.ltb_ge in Hclamp].
    + rewrite (wrap_small 32 (FromIndex + limit)) by lia.
      cbv zeta. repeat f_equal; lia.
    + cbv zeta. repeat f_equal; lia.
Qed.

(** X22: the two indices of a getblocks request may come in either order:
    the range served is the same. *)
Lemma onGetBlocksRequest_range_sym (limit FromIndex ToIndex : Z) :
  pasl.onGetBlocksRequest_range limit FromIndex ToIndex
  = pasl.onGetBlocksRequest_range limit ToIndex FromIndex.
Proof.
  unfold pasl.onGetBlocksRequest_range.
  destruct (ToIndex <? FromIndex) eqn:Hlt1;
    [apply Z.ltb_lt in Hlt1|apply Z.ltb_ge in Hlt1];
    (destruct (FromIndex <? ToIndex) eqn:Hlt2;
      [apply Z.ltb_lt in Hlt2|apply Z.ltb_ge in Hlt2]);
    try reflexivity; try lia.
  by replace ToIndex with FromIndex by lia.
Qed.

Context {C : Type} `{!utils.Serializable C}.
Context {Tx Public TargetBase PeerInfo : Type}.
Context (Tx_type : utils.type C) (Tx_value : Tx → utils.value C).
Context (Public_value : Public → utils.value C) (GetCompact : TargetBase → Z).
Context (GetBlock : Z → option (safebox.Block Tx Public TargetBase)).

(** The loop appends the serialized forms of the blocks at [index],
    [index + 1], ... and stops after [ToIndex] or at the first index that
    has no block. *)
Lemma onGetBlocksRequest_loop_found (fuel : nat) (index ToIndex : Z)
    (serialized : list (safebox.SerializedBlock Tx)) :
  0 <= index → ToIndex < 2 ^ 32 - 1 → (Z.to_nat (ToIndex - index + 1) < fuel)%nat →
  (∃ msg, pasl.onGetBlocksRequest_loop Public_value GetCompact GetBlock fuel
            index ToIndex serialized = Some (Panic msg))
  ∨ ∃ found,
      pasl.onGetBlocksRequest_loop Public_value GetCompact GetBlock fuel
        index ToIndex serialized = Some (Return (serialized ++ found))
      ∧ Z.of_nat (length found) <= Z.max 0 (ToIndex - index + 1)
      ∧ (∀ (i : nat) b, found !! i = Some b →
           ∃ block, GetBlock (index + Z.of_nat i) = Some block
                    ∧ safebox.Block_Serialize Public_value GetCompact block
                      = Return b)
      ∧ (Z.of_nat (length found) < Z.max 0 (ToIndex - index + 1) →
         GetBlock (index + Z.of_nat (length found)) = None).
Proof.
  revert index serialized.
  induction fuel as [|fuel IH]; intros index serialized Hindex Hto Hfuel; [lia|].
  cbn [pasl.onGetBlocksRequest_loop].
  destruct (index <=? ToIndex) eqn:Hle;
    [apply Z.leb_le in Hle|apply Z.leb_gt in Hle].
  2:{ right. exists []. rewrite app_nil_r. split; [done|]. cbn [length].
      split; [lia|]. split; [by intros i b ?|lia]. }
  destruct (GetBlock index) as [block|] eqn:Hblock.
  2:{ right. exists []. rewrite app_nil_r. split; [done|]. cbn [length].
      split; [lia|]. split; [by intros i b ?|].
      intros _. by rewrite Z.add_0_r. }
  destruct (safebox.Block_Serialize Public_value GetCompact block) as [b|msg]
    eqn:Hserialize.
  2:{ left. eauto. }
  unfold uint32. rewrite (wrap_small 32 (index + 1)) by lia.
  destruct (IH (index + 1) (serialized ++ [b]))
    as [[msg Hp]|(found & Hr & Hlen & Hfound & Hstop)]; [lia|lia|lia| |].
  - left. eauto.
  - right. exists (b :: found). rewrite Hr, <- app_assoc. split; [done|].
    cbn [length]. split; [lia|]. split.
    + intros [|i] b' Hi.
      * injection Hi as <-. exists block. by rewrite Z.add_0_r.
      * destruct (Hfound i b' Hi) as (block' & Hget & Hser).
        exists block'. split; [|done]. rewrite <- Hget. f_equal. lia.
    + intros Hshort. rewrite <- Hstop by lia. f_equal. lia.
Qed.

(** X23: what the getblocks handler puts in its response, for every request
    whose indices are below [2^32 - 1].  With [from] the smaller index and
    [total] the span clamped to the limit, the blocks of the response are
    [total] zero-valued blocks (those of [make]) followed by the serialized
    forms of the blocks at [from], [from + 1], ..., up to [from + total]
    included or up to the first index that has no block; unless
    serializing a block panics. *)
Lemma onGetBlocksRequest_serialized_blocks (limit : Z) (fuel : nat)
    (FromIndex ToIndex : Z) :
  0 <= limit < 2 ^ 32 → 0 <= FromIndex < 2 ^ 32 - 1 → 0 <= ToIndex < 2 ^ 32 - 1 →
  (Z.to_nat limit + 1 < fuel)%nat →
  let from := FromIndex `min` ToIndex in
  let total := limit `min` Z.abs (ToIndex - FromIndex) in
  (∃ msg, pasl.onGetBlocksRequest_serialized Public_value GetCompact GetBlock
            limit fuel FromIndex ToIndex = Some (Panic msg))
  ∨ ∃ found,
      pasl.onGetBlocksRequest_serialized Public_value GetCompact GetBlock
        limit fuel FromIndex ToIndex
      = Some (Return (replicate (Z.to_nat total) safebox.SerializedBlock_zero
                      ++ found))
      ∧ Z.of_nat (length found) <= total + 1
      ∧ (∀ (i : nat) b, found !! i = Some b →
           ∃ block, GetBlock (from + Z.of_nat i) = Some block
                    ∧ safebox.Block_Serialize Public_value GetCompact block
                      = Return b)
      ∧ (Z.of_nat (length found) < total + 1 →
         GetBlock (from + Z.of_nat (length found)) = None).
Proof.
  intros Hlimit Hfrom Hto Hfuel from total.
  unfold pasl.onGetBlocksRequest_serialized.
  rewrite onGetBlocksRequest_range_closed by lia. fold from total.
  assert (Htotal : 0 <= total <= limit) by lia.
  destruct (onGetBlocksRequest_loop_found fuel from (from + total)
              (replicate (Z.to_nat total) safebox.SerializedBlock_zero))
    as [Hpanic|(found & Hr & Hlen & Hfound & Hstop)]; [lia|lia|lia|by left|].
  right. exists found. split; [done|]. split; [lia|]. split; [done|].
  intros Hshort. apply Hstop. lia.
Qed.

(** X24: the getblocks handler never returns an error, whatever the
    payload (a short or empty payload is read as zeros): when it returns,
    the error is nil, the result code is [success], and the answer begins
    with the 32-bit count of the blocks that follow. *)
Lemma onGetBlocksRequest_no_error (limit : Z) (fuel : nat)
    (this : pasl.PascalConnection Tx PeerInfo)
    (request request' : pasl.requestResponse) (payload out : list byte)
    (err : option error) :
  pasl.onGetBlocksRequest Tx_type Tx_value Public_value GetCompact GetBlock
    limit fuel this request payload = Some (Return (out, request', err)) →
  err = None
  ∧ request' = pasl.setError request pasl.success
  ∧ ∃ FromIndex ToIndex blocks,
      pasl.Deserialize_packetGetBlocksRequest (C := C) payload
        = Return (FromIndex, ToIndex, None)
      ∧ pasl.onGetBlocksRequest_serialized Public_value GetCompact GetBlock
          limit fuel FromIndex ToIndex = Some (Return blocks)
      ∧ take 4 out = PutUint 4 (uint32 (Z.of_nat (length blocks))).
Proof.
  unfold pasl.onGetBlocksRequest.
  destruct (Deserialize_packetGetBlocksRequest_total (C := C) payload)
    as (FromIndex & ToIndex & Hdecode).
  rewrite Hdecode.
  destruct (pasl.onGetBlocksRequest_serialized Public_value GetCompact GetBlock
              limit fuel FromIndex ToIndex) as [[blocks|msg]|] eqn:Hblocks;
    [|discriminate|discriminate].
  unfold pasl.packetGetBlocksResponse_value.
  cbn [utils.Serialize utils.put utils.put_each].
  destruct (utils.put_each (utils.put true) _) as [rest|msg];
    cbn [mbind mret outcome_bind outcome_ret]; [|discriminate].
  intros Heq. injection Heq as <- <- <-.
  split; [done|]. split; [done|]. exists FromIndex, ToIndex, blocks.
  split; [done|]. split; [done|].
  rewrite length_map. reflexivity.
Qed.

End getblocks_handler.

(** ** Further runs on concrete inputs *)



(** Two streams that begin with the encoding of the 16-bit integer 258. *)
Lemma Serialize_prefix_free_witness :
  let v : utils.value utils.BytesWithoutLengthPrefix :=
    utils.VStruct None [utils.VUint utils.Uint16 258] in
  utils.Serialize false v = Return [Byte.x02; Byte.x01]
  ∧ v = v ∧ [Byte.x02; Byte.x01] = [Byte.x02; Byte.x01] ∧ [Byte.x09] = [Byte.x09].
Proof.
  intros v. split; [reflexivity|].
  apply (Serialize_prefix_free v v
           (utils.TStruct None [utils.TUint utils.Uint16]) false true
           [Byte.x02; Byte.x01] [Byte.x02; Byte.x01] [Byte.x09] [Byte.x09]);
    try reflexivity; try exact I;
    (apply utils.wire_struct, List.Forall2_cons; [|apply List.Forall2_nil];
     apply utils.wire_uint; split; by compute).
Defined.


(** Two bytes are read back into a buffer of two bytes. *)
Lemma BytesWithoutLengthPrefix_round_trip_witness :
  utils.BytesWithoutLengthPrefix_Deserialize
    {| utils.Bytes := [Byte.x00; Byte.x00] |}
    ((utils.BytesWithoutLengthPrefix_Serialize
        {| utils.Bytes := [Byte.x01; Byte.x02] |}).1 ++ [Byte.x03])
  = ({| utils.Bytes := [Byte.x01; Byte.x02] |}, [Byte.x03], None).
Proof.
  apply (BytesWithoutLengthPrefix_round_trip
           {| utils.Bytes := [Byte.x00; Byte.x00] |} [Byte.x01; Byte.x02]
           [Byte.x03]).
  reflexivity.
Defined.

(** The accounts of the block at index [2^32 - 2] are numbered
    4294967294, 4294967295, 0, 1 and 2. *)
Lemma NewBlock_accounts_witness :
  ∃ block,
    toy.NewBlock (toy.metadata (2 ^ 32 - 2) []) = Return (Some block, None)
    ∧ ∃ miner,
        toy.NewPublic [Byte.x02] = inl miner
        ∧ safebox.GetMiner block = miner
        ∧ safebox.blockAccounts block
          = map (λ i, {| accounter.Number := uint32 (i + (2 ^ 32 - 2));
                         accounter.PublicKey := miner;
                         accounter.Balance := 0;
                         accounter.UpdatedIndex := 2 ^ 32 - 2;
                         accounter.Operations := 0 |}) [0; 1; 2; 3; 4].
Proof.
  eexists. split; [reflexivity|].
  exact (NewBlock_accounts tx.GetFee toy.Tx_SerializeUnderlying toy.Sum256
           toy.NewPublic toy.NewTarget toy.getReward toy.AccountHashBuffer
           toy.GetHashBuffer (toy.metadata (2 ^ 32 - 2) []) _ eq_refl).
Defined.

(** A block with one operation and a block with none, at the same index,
    by the same miner: the same hash. *)
Lemma NewBlock_hash_inputs_witness :
  ∃ block1 block2,
    toy.NewBlock (toy.metadata 1 [toy.operation 0 3]) = Return (Some block1, None)
    ∧ toy.NewBlock (toy.metadata 1 []) = Return (Some block2, None)
    ∧ safebox.blockHash block1 = safebox.blockHash block2.
Proof.
  eexists _, _. split; [reflexivity|]. split; [reflexivity|].
  exact (NewBlock_hash_inputs tx.GetFee toy.Tx_SerializeUnderlying toy.Sum256
           toy.NewPublic toy.NewTarget toy.getReward toy.AccountHashBuffer
           toy.GetHashBuffer (toy.metadata 1 [toy.operation 0 3]) (toy.metadata 1 [])
           _ _ eq_refl eq_refl eq_refl eq_refl eq_refl).
Defined.

(** Metadata of version 2.0 with two operations: the serialized block
    reports version 1.1, fee 7 and the two operations. *)
Lemma NewBlock_Serialize_witness :
  let operations := [toy.operation 0 3; toy.operation 1 4] in
  let meta : safebox.BlockMetadata toy.Tx :=
    {| safebox.metaIndex := 5;
       safebox.metaMiner := [Byte.x02];
       safebox.metaVersion := {| common.Major := 2; common.Minor := 0 |};
       safebox.metaTimestamp := 0;
       safebox.metaTarget := 0;
       safebox.metaNonce := 0;
       safebox.metaPayload := [];
       safebox.metaPrevSafeBoxHash := [];
       safebox.metaOperations := operations |} in
  ∃ block sb,
    toy.NewBlock meta = Return (Some block, None)
    ∧ safebox.Block_Serialize toy.Public_value toy.GetCompact block = Return sb
    ∧ safebox.Version (safebox.Header sb) = {| common.Major := 1; common.Minor := 1 |}
    ∧ safebox.Index (safebox.Header sb) = 5
    ∧ safebox.Operations sb = operations.
Proof.
  intros operations meta.
  eexists _, _. split; [reflexivity|]. split; [reflexivity|].
  pose proof (NewBlock_Serialize tx.GetFee toy.Tx_SerializeUnderlying toy.Sum256
                toy.NewPublic toy.Public_value toy.NewTarget toy.GetCompact
                toy.getReward toy.AccountHashBuffer toy.GetHashBuffer meta _ _
                eq_refl eq_refl) as Hall.
  split; [exact (proj1 (proj2 Hall))|].
  split; [exact (proj1 (proj2 (proj2 Hall)))|].
  exact (proj2 (proj2 (proj2 (proj2 (proj2 (proj2 (proj2 (proj2 (proj2 (proj2
           (proj2 (proj2 (proj2 Hall))))))))))))).
Defined.

(** A hello from another node is answered with the connection's hello. *)
Lemma onHelloRequest_outcomes_witness :
  ∃ this' request' out,
    pasl.onHelloRequest toy.Deserialize_packetHello [Byte.x2a]
      (toy.connection [Byte.x09; Byte.x09; Byte.x09; Byte.x09])
      {| pasl.result := None |}
      [Byte.x01; Byte.x02; Byte.x03; Byte.x04; Byte.xaa]
    = Return (this', request', out, None)
    ∧ out = [Byte.x2a]
    ∧ request' = {| pasl.result := Some pasl.success |}.
Proof.
  eexists _, _, _. split; [vm_compute; reflexivity|].
  destruct (onHelloRequest_outcomes toy.Deserialize_packetHello [Byte.x2a]
              (toy.connection [Byte.x09; Byte.x09; Byte.x09; Byte.x09]) _
              {| pasl.result := None |} _
              [Byte.x01; Byte.x02; Byte.x03; Byte.x04; Byte.xaa] _ None
              ltac:(vm_compute; reflexivity))
    as (packet & _ & _ & Hout & Hrequest & _).
  split; [exact Hout|exact Hrequest].
Defined.

(** The request 5..1 with a limit of 2 on a chain that has every block. *)
Lemma onGetBlocksRequest_serialized_blocks_witness :
  let from := 5 `min` 1 in
  let total := 2 `min` Z.abs (1 - 5) in
  (∃ msg, pasl.onGetBlocksRequest_serialized toy.Public_value toy.GetCompact
            toy.GetBlock_full 2 4 5 1 = Some (Panic msg))
  ∨ ∃ found,
      pasl.onGetBlocksRequest_serialized toy.Public_value toy.GetCompact
        toy.GetBlock_full 2 4 5 1
      = Some (Return (replicate (Z.to_nat total) safebox.SerializedBlock_zero
                      ++ found))
      ∧ Z.of_nat (length found) <= total + 1
      ∧ (∀ (i : nat) b, found !! i = Some b →
           ∃ block, toy.GetBlock_full (from + Z.of_nat i) = Some block
                    ∧ safebox.Block_Serialize toy.Public_value toy.GetCompact block
                      = Return b)
      ∧ (Z.of_nat (length found) < total + 1 →
         toy.GetBlock_full (from + Z.of_nat (length found)) = None).
Proof.
  apply (onGetBlocksRequest_serialized_blocks toy.Public_value toy.GetCompact
           toy.GetBlock_full 2 4 5 1);
    try (split; by compute).
  cbn. lia.
Defined.

(** An empty payload is served as the request 0..0. *)
Lemma onGetBlocksRequest_no_error_witness :
  ∃ out request' err,
    pasl.onGetBlocksRequest toy.Tx_type toy.Tx_value toy.Public_value
      toy.GetCompact toy.GetBlock_none 2 10 (toy.connection [])
      {| pasl.result := None |} []
    = Some (Return (out, request', err))
    ∧ err = None
    ∧ request' = {| pasl.result := Some pasl.success |}.
Proof.
  eexists _, _, _. split; [vm_compute; reflexivity|].
  destruct (onGetBlocksRequest_no_error toy.Tx_type toy.Tx_value toy.Public_value
              toy.GetCompact toy.GetBlock_none 2 10 (toy.connection [])
              {| pasl.result := None |} _ [] _ _ ltac:(vm_compute; reflexivity))
    as (Herr & Hrequest & _).
  split; [exact Herr|exact Hrequest].
Defined.

(** The request for blocks 3 to 500 is decoded to 3 and 500. *)
Lemma getblocks_request_roundtrip_witness :
  ∃ packet,
    pasl.StartBlocksDownloading_packet (C := utils.BytesWithoutLengthPrefix) 3 500
      = Return packet
    ∧ length packet = 8%nat
    ∧ pasl.Deserialize_packetGetBlocksRequest
        (C := utils.BytesWithoutLengthPrefix) packet
      = Return (3, 500, None).
Proof.
  apply (getblocks_request_roundtrip (C := utils.BytesWithoutLengthPrefix) 3 500);
    split; by compute.
Defined.
